(** * Sensor application of the wildlife-monitoring LoRa node

    A shallow embedding of [wlam_sensor_app] (the application that samples
    temperature, NO2, humidity and an event counter on jittered timers and
    aggregates whatever is due into one uplink packet) and of
    [WeissbergerPathLoss::computePathLoss].

    Conventions of the embedding.
    - [double] and [simtime_t] values are exact rationals ([Q]); rounding of
      the binary formats is not modelled.  A [double] that may still hold its
      [NAN] initialiser is an [option Q], [None] standing for [NAN].
    - [int] and [size_t] arithmetic is on [Z] with the wrap-around written
      out ([int_wrap], [size_t_wrap]).
    - The random number generator is a cursor into two oracle streams: the
      k-th call of the run returns [doubleRand k] when it is a [uniform] call
      and [stdNormal k] (scaled) when it is a [normal] call.
    - Signals emitted and packets sent are the output of a computation; the
      module state, the clock, the random cursor, the external radio module
      and the pending timer are its state.
    - The host is a driver that starts the module, delivers the pending
      timer or another message, or ends the simulation; [scheduleAt] with an
      arrival time in the past is a runtime error that ends the run. *)

From Stdlib Require Import ZArith QArith List Bool String Lia Lqa.
Import ListNotations.
Open Scope Q_scope.

(** ** The simulation library and the environment of the module *)

(** What the code takes from OMNeT++/INET and from the C library. *)
Class Runtime := {
  SIMTIME_MAX : Q;               (* largest representable simulation time *)
  sin : Q -> Q;                  (* <cmath> *)
  M_PI : Q;
  dBmW2mW : Q -> Q;              (* inet::math::dBmW2mW *)
  getFullPath : string;          (* full path of this module *)
  doubleRand : nat -> Q;         (* k-th draw, as a number of [0,1) *)
  stdNormal : nat -> Q           (* k-th draw, as a standard normal deviate *)
}.

(** The presence bits of the packet bitmap.  The enumeration is declared in
    the message definition of the packet ([DataPacket_m.h]), which is not
    among the sources: its values are parameters of the development. *)
Class SensorBits := {
  SB_NONE : Z;
  SB_TEMPERATURE : Z;
  SB_NO2 : Z;
  SB_HUMIDITY : Z;
  SB_COUNTER : Z
}.

(** The module parameters: [par_x] is what [par("x")] returns. *)
Class Params := {
  par_temperatureInterval : Q;
  par_no2Interval : Q;
  par_humidityInterval : Q;
  par_counterInterval : Q;
  par_intervalJitterFraction : Q;
  par_baseTemperature : Q;
  par_amplitudeTemperature : Q;
  par_baseHumidity : Q;
  par_amplitudeHumidity : Q;
  par_baseNO2 : Q;
  par_amplitudeNO2 : Q;
  par_initialLoRaTP : Q;
  par_initialLoRaCF : Q;
  par_initialLoRaSF : Z;
  par_initialLoRaBW : Q;
  par_initialLoRaCR : Z;
  par_basePayloadBytes : Z;
  par_counterPayloadBytes : Z
}.

(** ** Machine integers *)

(** [int]: 32 bits, two's complement. *)
Definition int_wrap (z : Z) : Z := ((z + 2 ^ 31) mod 2 ^ 32 - 2 ^ 31)%Z.

(** [size_t]: 64 bits, unsigned. *)
Definition size_t_wrap (z : Z) : Z := (z mod 2 ^ 64)%Z.


Definition sizeof_simtime_t : Z := 8%Z.
Definition sizeof_double : Z := 8%Z.

(** [a < b] on doubles and simulation times. *)
Definition Qlt_bool (a b : Q) : bool := negb (Qle_bool b a).

(** ** Data of the module *)

(** [enum SensorID]; [SID_COUNT] is the number of entries. *)
Inductive SensorID : Type :=
  | SID_TEMPERATURE
  | SID_NO2
  | SID_HUMIDITY
  | SID_COUNTER.

Definition SensorID_eqb (a b : SensorID) : bool :=
  match a, b with
  | SID_TEMPERATURE, SID_TEMPERATURE
  | SID_NO2, SID_NO2
  | SID_HUMIDITY, SID_HUMIDITY
  | SID_COUNTER, SID_COUNTER => true
  | _, _ => false
  end.

(** The indices [0 .. SID_COUNT-1] in the order the [for] loops visit them. *)
Definition SID_range : list SensorID :=
  [SID_TEMPERATURE; SID_NO2; SID_HUMIDITY; SID_COUNTER].

(** [struct SensorState]. *)
Record SensorState : Type := mkSensorState {
  sensor_id : SensorID;
  interval : Q;
  nextDue : Q;
  lastValue : option Q;
  counter : Z;
  isCounter : bool
}.

(** The external radio module ([LoRaRadio]), as far as the code touches it. *)
Record LoRaRadio : Type := mkLoRaRadio {
  loRaTP : Q;
  loRaCF : Q;
  loRaSF : Z;
  loRaBW : Q;
  loRaCR : Z
}.

(** The members of [class wlam_sensor_app].  [scheduler] and [loRaRadio] are
    pointers: [true] is "not null"; [loRaRadio], when not null, points to the
    radio module of the world. *)
Record App : Type := mkApp {
  scheduler : bool;
  sensors : SensorID -> SensorState;
  jitterFrac : Q;
  baseTemp : Q;
  ampTemp : Q;
  baseNO2 : Q;
  ampNO2 : Q;
  baseHum : Q;
  ampHum : Q;
  initTPdBm : Q;
  initCFHz : Q;
  initSF : Z;
  initBWHZ : Q;
  initCR : Z;
  initUseHeader : bool;
  basePayloadBytes : Z;
  loRaRadio : bool
}.

(** The state a callback of the module runs in. *)
Record World : Type := mkWorld {
  app : App;
  simTime : Q;                   (* the clock of the host *)
  rng : nat;                     (* number of random draws made so far *)
  radio : option LoRaRadio;      (* LoRaNic.radio of the parent, if it is a LoRaRadio *)
  fes : option Q                 (* arrival time of [scheduler], if it is scheduled *)
}.

(** ** What the module hands to the host *)

Inductive Signal : Type := sigTemp | sigNO2 | sigHum | sigCounter | sigPktSent.

Inductive Value : Type :=
  | DoubleV (d : Q)
  | LongV (n : Z).

(** [LoRaTag]. *)
Record LoRaTag : Type := mkLoRaTag {
  getSpreadFactor : Z;
  getBandwidth : Q;
  getCenterFrequency : Q;
  getPower : Q;
  getCodeRendundance : Z
}.

(** [LoRaSensorPacket], the payload chunk. *)
Record LoRaSensorPacket : Type := mkLoRaSensorPacket {
  getBitmap : Z;
  getTemperature : option Q;
  getNo2 : option Q;
  getHumidity : option Q;
  getCounter : Z;
  getNodeId : string;
  getCreatedAt : Q;
  getChunkLength : Z
}.

Record Packet : Type := mkPacket {
  getName : string;
  payload : LoRaSensorPacket;
  loRaTag : option LoRaTag
}.

Inductive Event : Type :=
  | Emit (s : Signal) (v : Value)
  | Send (pkt : Packet) (gate : string).

(** ** Computations: state passing with an output *)

Definition M (A : Type) : Type := World -> A * World * list Event.

Definition ret {A} (a : A) : M A := fun w => (a, w, []).

Definition bind {A B} (m : M A) (f : A -> M B) : M B :=
  fun w =>
    let '(a, w1, o1) := m w in
    let '(b, w2, o2) := f a w1 in
    (b, w2, o1 ++ o2).

Notation "x <- c1 ;; c2" := (bind c1 (fun x => c2))
  (at level 61, c1 at next level, right associativity).
Notation "c1 ;; c2" := (bind c1 (fun _ => c2))
  (at level 61, right associativity).

Definition getWorld : M World := fun w => (w, w, []).

Definition emit (s : Signal) (v : Value) : M unit := fun w => (tt, w, [Emit s v]).

Definition send (pkt : Packet) (gate : string) : M unit :=
  fun w => (tt, w, [Send pkt gate]).

Definition set_app (a : App) (w : World) : World :=
  mkWorld a (simTime w) (rng w) (radio w) (fes w).

Definition set_rng (n : nat) (w : World) : World :=
  mkWorld (app w) (simTime w) n (radio w) (fes w).

Definition set_radio (r : option LoRaRadio) (w : World) : World :=
  mkWorld (app w) (simTime w) (rng w) r (fes w).

Definition set_fes (t : option Q) (w : World) : World :=
  mkWorld (app w) (simTime w) (rng w) (radio w) t.

Definition set_simTime (t : Q) (w : World) : World :=
  mkWorld (app w) t (rng w) (radio w) (fes w).

Definition set_sensors (f : SensorID -> SensorState) (a : App) : App :=
  mkApp (scheduler a) f (jitterFrac a) (baseTemp a) (ampTemp a) (baseNO2 a)
        (ampNO2 a) (baseHum a) (ampHum a) (initTPdBm a) (initCFHz a) (initSF a)
        (initBWHZ a) (initCR a) (initUseHeader a) (basePayloadBytes a)
        (loRaRadio a).

Definition set_scheduler (b : bool) (a : App) : App :=
  mkApp b (sensors a) (jitterFrac a) (baseTemp a) (ampTemp a) (baseNO2 a)
        (ampNO2 a) (baseHum a) (ampHum a) (initTPdBm a) (initCFHz a) (initSF a)
        (initBWHZ a) (initCR a) (initUseHeader a) (basePayloadBytes a)
        (loRaRadio a).

(** [sensors[i] = s]. *)
Definition upd (i : SensorID) (s : SensorState) (f : SensorID -> SensorState)
  : SensorID -> SensorState :=
  fun j => if SensorID_eqb j i then s else f j.

(** Apply [g] to the array element [sensors[i]] in place. *)
Definition modifySensor (i : SensorID) (g : SensorState -> SensorState) : M unit :=
  fun w =>
    (tt, set_app (set_sensors (upd i (g (sensors (app w) i)) (sensors (app w))) (app w)) w, []).

Definition set_nextDue (t : Q) (s : SensorState) : SensorState :=
  mkSensorState (sensor_id s) (interval s) t (lastValue s) (counter s) (isCounter s).

Definition set_lastValue (v : option Q) (s : SensorState) : SensorState :=
  mkSensorState (sensor_id s) (interval s) (nextDue s) v (counter s) (isCounter s).

Definition set_counter (c : Z) (s : SensorState) : SensorState :=
  mkSensorState (sensor_id s) (interval s) (nextDue s) (lastValue s) c (isCounter s).

(** ** The module *)

Section WlamSensorApp.

Context {RT : Runtime} {SB : SensorBits} {PAR : Params}.

(** [uniform(a, b)] and [normal(mean, stddev)] of the host: one draw each. *)
Definition uniform (a b : Q) : M Q :=
  fun w => (a + doubleRand (rng w) * (b - a), set_rng (S (rng w)) w, []).

Definition normal (mean stddev : Q) : M Q :=
  fun w => (mean + stddev * stdNormal (rng w), set_rng (S (rng w)) w, []).

(** A default-constructed module: the member initialisers of the class.  The
    [id] member of a [SensorState] has no initialiser; [ids] stands for
    whatever it holds. *)
Definition SensorState_default (i : SensorID) : SensorState :=
  mkSensorState i 0 SIMTIME_MAX None 0 false.

Definition App_default (ids : SensorID -> SensorID) : App :=
  mkApp false (fun i => SensorState_default (ids i))
        0 0 0 0 0 0 0 0 0 0%Z 0 0%Z true 0%Z false.

Definition applyInitialLoRaParams : M unit :=
  fun w =>
    if negb (loRaRadio (app w)) then (tt, w, [])
    else
      match radio w with
      | Some _ =>
          (tt,
           set_radio (Some (mkLoRaRadio (initTPdBm (app w)) (initCFHz (app w))
                                        (initSF (app w)) (initBWHZ (app w))
                                        (initCR (app w)))) w,
           [])
      | None => (tt, w, [])    (* no such pointer is ever stored *)
      end.

Definition initSensor (id : SensorID) (interval_ : Q) (isCounter_ : bool) : M unit :=
  modifySensor id (fun s => mkSensorState id interval_ (nextDue s) None 0%Z isCounter_) ;;
  if Qlt_bool 0 interval_ then
    w <- getWorld ;;
    let jitter := interval_ * jitterFrac (app w) in
    u <- uniform (- jitter) jitter ;;
    modifySensor id (set_nextDue (simTime w + interval_ + u))
  else
    modifySensor id (set_nextDue SIMTIME_MAX).

Definition earliestNextDue (a : App) : Q :=
  fold_left
    (fun e i => if Qlt_bool (nextDue (sensors a i)) e then nextDue (sensors a i) else e)
    SID_range SIMTIME_MAX.

(** [scheduleAt(t, scheduler)]: the host refuses an arrival time in the past
    with a runtime error ([None]). *)
Definition scheduleAt (t : Q) (w : World) : option World :=
  if Qlt_bool t (simTime w) then None else Some (set_fes (Some t) w).

Definition scheduleNext (w : World) : option World :=
  let n := earliestNextDue (app w) in
  if Qlt_bool n SIMTIME_MAX then scheduleAt n w else Some w.

Definition genTemperature : M Q :=
  w <- getWorld ;;
  let hrs := simTime w / 3600 in
  noise <- normal 0 0.2 ;;
  ret (baseTemp (app w) + ampTemp (app w) * sin (2 * M_PI * (hrs / 24)) + noise).

Definition genHumidity : M Q :=
  w <- getWorld ;;
  let hrs := simTime w / 3600 in
  noise <- normal 0 0.5 ;;
  ret (baseHum (app w) + ampHum (app w) * sin (2 * M_PI * (hrs / 24) + M_PI / 4) + noise).

Definition genNO2 : M Q :=
  w <- getWorld ;;
  let hrs := simTime w / 3600 in
  noise <- normal 0 0.1 ;;
  ret (baseNO2 (app w) + ampNO2 (app w) * (0.5 + 0.5 * sin (2 * M_PI * (hrs / 12))) + noise).

Definition attachLoRaTag (pkt : Packet) : M Packet :=
  fun w =>
    if negb (loRaRadio (app w)) then (pkt, w, [])
    else
      match radio w with
      | Some r =>
          (mkPacket (getName pkt) (payload pkt)
                    (Some (mkLoRaTag (loRaSF r) (loRaBW r) (loRaCF r)
                                     (dBmW2mW (loRaTP r)) (loRaCR r))),
           w, [])
      | None => (pkt, w, [])   (* no such pointer is ever stored *)
      end.

(** The local variables of [sampleAndSendIfDue]. *)
Record Locals : Type := mkLocals {
  bitmap : Z;
  temperature : option Q;
  humidity : option Q;
  no2 : option Q;
  counterVal : Z
}.

(** [bitmap & bit], as a condition. *)
Definition bit_set (bitmap_ bit : Z) : bool := negb (Z.land bitmap_ bit =? 0)%Z.

(** The [switch (s.id)] of the loop body, for [s = sensors[i]]. *)
Definition sampleSensor (i : SensorID) (l : Locals) : M Locals :=
  w <- getWorld ;;
  match sensor_id (sensors (app w) i) with
  | SID_TEMPERATURE =>
      t <- genTemperature ;;
      h <- genHumidity ;;
      emit sigTemp (DoubleV t) ;;
      emit sigHum (DoubleV h) ;;
      ret (mkLocals (Z.lor (Z.lor (bitmap l) SB_TEMPERATURE) SB_HUMIDITY)
                    (Some t) (Some h) (no2 l) (counterVal l))
  | SID_NO2 =>
      n <- genNO2 ;;
      modifySensor i (set_lastValue (Some n)) ;;
      emit sigNO2 (DoubleV n) ;;
      ret (mkLocals (Z.lor (bitmap l) SB_NO2)
                    (temperature l) (humidity l) (Some n) (counterVal l))
  | SID_HUMIDITY =>
      h <- genHumidity ;;
      modifySensor i (set_lastValue (Some h)) ;;
      emit sigHum (DoubleV h) ;;
      ret (mkLocals (Z.lor (bitmap l) SB_HUMIDITY)
                    (temperature l) (Some h) (no2 l) (counterVal l))
  | SID_COUNTER =>
      modifySensor i (fun s => set_counter (int_wrap (counter s + 1)) s) ;;
      w' <- getWorld ;;
      let c := counter (sensors (app w') i) in
      emit sigCounter (LongV c) ;;
      ret (mkLocals (Z.lor (bitmap l) SB_COUNTER)
                    (temperature l) (humidity l) (no2 l) c)
  end.

(** The recomputation of [s.nextDue] that ends the loop body. *)
Definition recomputeNextDue (now : Q) (i : SensorID) : M unit :=
  w <- getWorld ;;
  let s := sensors (app w) i in
  if Qlt_bool 0 (interval s) then
    let jitter := interval s * jitterFrac (app w) in
    u <- uniform (- jitter) jitter ;;
    modifySensor i (set_nextDue (now + interval s + u))
  else
    modifySensor i (set_nextDue SIMTIME_MAX).

(** One iteration of the [for] loop. *)
Definition loopBody (now : Q) (i : SensorID) (l : Locals) : M Locals :=
  w <- getWorld ;;
  if Qle_bool (nextDue (sensors (app w) i)) now then
    l' <- sampleSensor i l ;;
    recomputeNextDue now i ;;
    ret l'
  else ret l.

Fixpoint forEach {A} (ids : list SensorID) (f : SensorID -> A -> M A) (a : A) : M A :=
  match ids with
  | [] => ret a
  | i :: rest => a' <- f i a ;; forEach rest f a'
  end.

(** The size accounting of the payload. *)
Definition payloadBytes (base : Z) (bitmap_ : Z) : Z :=
  let bytes := size_t_wrap (int_wrap (base + 1) + sizeof_simtime_t) in
  let bytes := if bit_set bitmap_ SB_TEMPERATURE
               then size_t_wrap (bytes + sizeof_double) else bytes in
  let bytes := if bit_set bitmap_ SB_NO2
               then size_t_wrap (bytes + sizeof_double) else bytes in
  let bytes := if bit_set bitmap_ SB_HUMIDITY
               then size_t_wrap (bytes + sizeof_double) else bytes in
  let bytes := if bit_set bitmap_ SB_COUNTER
               then size_t_wrap (bytes + par_counterPayloadBytes) else bytes in
  bytes.

Definition sampleAndSendIfDue : M unit :=
  w0 <- getWorld ;;
  let now := simTime w0 in
  l <- forEach SID_range (loopBody now) (mkLocals SB_NONE None None None 0%Z) ;;
  if (bitmap l =? SB_NONE)%Z then ret tt
  else
    w <- getWorld ;;
    let payload_ :=
      mkLoRaSensorPacket (bitmap l) (temperature l) (no2 l) (humidity l)
                         (counterVal l) getFullPath now
                         (payloadBytes (basePayloadBytes (app w)) (bitmap l)) in
    let pkt := mkPacket "sensorAggUplink" payload_ None in
    pkt <- attachLoRaTag pkt ;;
    send pkt "socketOut" ;;
    emit sigPktSent (LongV (bitmap l)).

(** The stages [initialize] is called with. *)
Inductive InitStage : Type :=
  | INITSTAGE_LOCAL                 (* stage 0 *)
  | INITSTAGE_APPLICATION_LAYER
  | INITSTAGE_other.

(** How a callback that may raise a runtime error ends. *)
Inductive Outcome : Type :=
  | Returned (w : World)
  | Thrown (w : World).

Definition initialize (stage : InitStage) (w : World) : Outcome * list Event :=
  match stage with
  | INITSTAGE_LOCAL =>
      let a := app w in
      let a1 :=
        mkApp (scheduler a) (sensors a) par_intervalJitterFraction
              par_baseTemperature par_amplitudeTemperature
              par_baseNO2 par_amplitudeNO2
              par_baseHumidity par_amplitudeHumidity
              par_initialLoRaTP par_initialLoRaCF (int_wrap par_initialLoRaSF)
              par_initialLoRaBW (int_wrap par_initialLoRaCR)
              (initUseHeader a) (int_wrap par_basePayloadBytes)
              (match radio w with Some _ => true | None => loRaRadio a end) in
      let '(_, w1, o) :=
        (initSensor SID_TEMPERATURE par_temperatureInterval false ;;
         initSensor SID_NO2 par_no2Interval false ;;
         initSensor SID_HUMIDITY par_humidityInterval false ;;
         initSensor SID_COUNTER par_counterInterval true) (set_app a1 w) in
      (Returned (set_app (set_scheduler true (app w1)) w1), o)
  | INITSTAGE_APPLICATION_LAYER =>
      let '(_, w1, o) := applyInitialLoRaParams w in
      match scheduleNext w1 with
      | Some w2 => (Returned w2, o)
      | None => (Thrown w1, o)
      end
  | INITSTAGE_other => (Returned w, [])
  end.

(** The messages the host delivers. *)
Inductive Message : Type :=
  | SchedulerMsg                      (* [msg == scheduler] *)
  | OtherMsg (arrivedOnSocketIn : bool).

Definition handleMessage (msg : Message) (w : World) : Outcome * list Event :=
  match msg with
  | SchedulerMsg =>
      let '(_, w1, o) := sampleAndSendIfDue w in
      match scheduleNext w1 with
      | Some w2 => (Returned w2, o)
      | None => (Thrown w1, o)
      end
  | OtherMsg true => (Returned w, [])     (* downlink: dropped *)
  | OtherMsg false => (Returned w, [])
  end.

Definition finish (w : World) : World :=
  if scheduler (app w)
  then set_fes None (set_app (set_scheduler false (app w)) w)
  else w.

(** ** The host driving the module *)

Record Sim : Type := mkSim {
  world : World;
  trace : list Event;            (* everything emitted and sent so far *)
  running : bool                 (* no runtime error, not finished *)
}.

Definition outcome_world (o : Outcome) : World :=
  match o with
  | Returned w => w
  | Thrown w => w
  end.

Definition after (s : Sim) (r : Outcome * list Event) : Sim :=
  match r with
  | (Returned w, o) => mkSim w (trace s ++ o) true
  | (Thrown w, o) => mkSim w (trace s ++ o) false
  end.

(** The module is created at time [t0] next to the radio [r0] (if any), and
    its initialisation stages are run in order. *)
Definition startup (ids : SensorID -> SensorID) (r0 : option LoRaRadio) (t0 : Q) : Sim :=
  let s0 := mkSim (mkWorld (App_default ids) t0 0%nat r0 None) [] true in
  let s1 := after s0 (initialize INITSTAGE_LOCAL (world s0)) in
  if running s1 then after s1 (initialize INITSTAGE_APPLICATION_LAYER (world s1))
  else s1.

Inductive HostEvent : Type :=
  | TimerFires                        (* the pending [scheduler] arrives *)
  | MessageArrives (t : Q) (onSocketIn : bool)
  | SimulationEnds.

(** The host advances the clock to the arrival time [t] of [scheduler] and
    takes the message out of its event set. *)
Definition timerArrival (w : World) (t : Q) : World :=
  set_fes None (set_simTime t w).

Definition deliver (s : Sim) (ev : HostEvent) : Sim :=
  if negb (running s) then s
  else
    match ev with
    | TimerFires =>
        match fes (world s) with
        | Some t =>
            after s (handleMessage SchedulerMsg (timerArrival (world s) t))
        | None => s
        end
    | MessageArrives t onSocketIn =>
        if Qle_bool (simTime (world s)) t
           && match fes (world s) with Some t' => Qle_bool t t' | None => true end
        then after s (handleMessage (OtherMsg onSocketIn) (set_simTime t (world s)))
        else s
    | SimulationEnds => mkSim (finish (world s)) (trace s) false
    end.

Definition run (s : Sim) (evs : list HostEvent) : Sim := fold_left deliver evs s.

End WlamSensorApp.

(** ** The path-loss model *)

Module WeissbergerPathLoss.

(** What [computePathLoss] takes from outside: [std::pow], the method of the
    base class [FreeSpacePathLoss], and the module parameter. *)
Class Env := {
  pow : Q -> Q -> Q;
  FreeSpacePathLoss_computePathLoss : Q -> Q -> Q;
  par_vegetationDepth : Q
}.

Definition computePathLoss {E : Env} (distance frequency : Q) : Q :=
  let fspl := FreeSpacePathLoss_computePathLoss distance frequency in
  let vegDepth := par_vegetationDepth in
  let fGHz := frequency / 1e9 in
  let Lveg :=
    if Qlt_bool 0 vegDepth then
      if Qle_bool vegDepth 14.0
      then 0.45 * pow fGHz 0.284 * vegDepth
      else 1.33 * pow fGHz 0.284 * pow vegDepth 0.588
    else 0.0 in
  let totalLoss := fspl + Lveg in
  totalLoss.

End WeissbergerPathLoss.

(** * Properties *)

(** ** Words of the specification *)

(** The presence bits are usable as such: [SB_NONE] is the empty bitmap and
    the four bits are non-empty and pairwise disjoint. *)
Definition SensorBits_ok {SB : SensorBits} : Prop :=
  SB_NONE = 0%Z /\
  (SB_TEMPERATURE <> 0 /\ SB_NO2 <> 0 /\ SB_HUMIDITY <> 0 /\ SB_COUNTER <> 0)%Z /\
  (Z.land SB_TEMPERATURE SB_NO2 = 0 /\ Z.land SB_TEMPERATURE SB_HUMIDITY = 0 /\
   Z.land SB_TEMPERATURE SB_COUNTER = 0 /\ Z.land SB_NO2 SB_HUMIDITY = 0 /\
   Z.land SB_NO2 SB_COUNTER = 0 /\ Z.land SB_HUMIDITY SB_COUNTER = 0)%Z.

(** The presence bit of a quantity. *)
Definition SB_of {SB : SensorBits} (i : SensorID) : Z :=
  match i with
  | SID_TEMPERATURE => SB_TEMPERATURE
  | SID_NO2 => SB_NO2
  | SID_HUMIDITY => SB_HUMIDITY
  | SID_COUNTER => SB_COUNTER
  end.

(** The interval a quantity is configured with. *)
Definition par_interval {PAR : Params} (i : SensorID) : Q :=
  match i with
  | SID_TEMPERATURE => par_temperatureInterval
  | SID_NO2 => par_no2Interval
  | SID_HUMIDITY => par_humidityInterval
  | SID_COUNTER => par_counterInterval
  end.


(** Quantity [i] is due in [w]: [sensors[i].nextDue <= simTime()]. *)
Definition due (w : World) (i : SensorID) : bool :=
  Qle_bool (nextDue (sensors (app w) i)) (simTime w).

(** Each array element carries its own index, as [initSensor] leaves it. *)
Definition ids_ok (w : World) : Prop :=
  forall i, sensor_id (sensors (app w) i) = i.

(** A callback left everything but the sensor table and the random cursor
    as it was. *)
Definition static (w w' : World) : Prop :=
  simTime w' = simTime w /\ radio w' = radio w /\ fes w' = fes w /\
  app w' = set_sensors (sensors (app w')) (app w).

(** The values emitted on a signal, in order. *)
Definition emitted (s : Signal) (o : list Event) : list Value :=
  flat_map (fun e =>
              match e with
              | Emit s' v =>
                  match s, s' with
                  | sigTemp, sigTemp | sigNO2, sigNO2 | sigHum, sigHum
                  | sigCounter, sigCounter | sigPktSent, sigPktSent => [v]
                  | _, _ => []
                  end
              | Send _ _ => []
              end) o.

(** The packets sent, in order. *)
Definition sent (o : list Event) : list Packet :=
  flat_map (fun e => match e with Send p _ => [p] | Emit _ _ => [] end) o.

(** The parts of a finished computation. *)
Definition result {A} (r : A * World * list Event) : A := fst (fst r).
Definition final {A} (r : A * World * list Event) : World := snd (fst r).
Definition output {A} (r : A * World * list Event) : list Event := snd r.

(** A bitmap respects the disabled quantities: the bit of a disabled
    temperature, NO2 or counter quantity is clear, and the humidity bit of a
    disabled humidity quantity is set only together with the temperature
    bit. *)
Definition respects_disabled {SB : SensorBits} (disabled : SensorID -> Prop)
           (bitmap_ : Z) : Prop :=
  forall i, disabled i ->
    (i <> SID_HUMIDITY -> bit_set bitmap_ (SB_of i) = false) /\
    (i = SID_HUMIDITY ->
     bit_set bitmap_ SB_HUMIDITY = true -> bit_set bitmap_ SB_TEMPERATURE = true).

(** The humidity reading [genHumidity] returns in [w] from the k-th draw. *)
Definition humidityAt {RT : Runtime} (w : World) (k : nat) : Q :=
  result (genHumidity (set_rng k w)).


(** The temperature and NO2 readings [genTemperature] and [genNO2] return
    in [w] from the k-th draw. *)
Definition temperatureAt {RT : Runtime} (w : World) (k : nat) : Q :=
  result (genTemperature (set_rng k w)).

Definition no2At {RT : Runtime} (w : World) (k : nat) : Q :=
  result (genNO2 (set_rng k w)).

(** The number of random draws the loop iteration of quantity [i] makes in
    [w]: the readings it generates if it is due, and one more for the jitter
    if its interval is positive. *)
Definition drawsOf (w : World) (i : SensorID) : nat :=
  if due w i then
    ((match i with
      | SID_TEMPERATURE => 2
      | SID_NO2 => 1
      | SID_HUMIDITY => 1
      | SID_COUNTER => 0
      end)
     + (if Qlt_bool 0 (interval (sensors (app w) i)) then 1 else 0))%nat
  else 0%nat.

(** The local variables of [sampleAndSendIfDue] after its loop, written out
    quantity by quantity. *)
Definition loopLocals {RT : Runtime} {SB : SensorBits} (w : World) : Locals :=
  let kT := rng w in
  let kN := (kT + drawsOf w SID_TEMPERATURE)%nat in
  let kH := (kN + drawsOf w SID_NO2)%nat in
  let l0 := mkLocals SB_NONE None None None 0%Z in
  let l1 :=
    if due w SID_TEMPERATURE
    then mkLocals (Z.lor (Z.lor (bitmap l0) SB_TEMPERATURE) SB_HUMIDITY)
                  (Some (temperatureAt w kT)) (Some (humidityAt w (S kT)))
                  (no2 l0) (counterVal l0)
    else l0 in
  let l2 :=
    if due w SID_NO2
    then mkLocals (Z.lor (bitmap l1) SB_NO2) (temperature l1) (humidity l1)
                  (Some (no2At w kN)) (counterVal l1)
    else l1 in
  let l3 :=
    if due w SID_HUMIDITY
    then mkLocals (Z.lor (bitmap l2) SB_HUMIDITY) (temperature l2)
                  (Some (humidityAt w kH)) (no2 l2) (counterVal l2)
    else l2 in
  if due w SID_COUNTER
  then mkLocals (Z.lor (bitmap l3) SB_COUNTER) (temperature l3) (humidity l3) (no2 l3)
                (int_wrap (counter (sensors (app w) SID_COUNTER) + 1))
  else l3.

(** The readings the loop emits, in order. *)
Definition loopReadings {RT : Runtime} (w : World) : list Event :=
  let kT := rng w in
  let kN := (kT + drawsOf w SID_TEMPERATURE)%nat in
  let kH := (kN + drawsOf w SID_NO2)%nat in
  (if due w SID_TEMPERATURE
   then [Emit sigTemp (DoubleV (temperatureAt w kT));
         Emit sigHum (DoubleV (humidityAt w (S kT)))]
   else [])
  ++ (if due w SID_NO2 then [Emit sigNO2 (DoubleV (no2At w kN))] else [])
  ++ (if due w SID_HUMIDITY then [Emit sigHum (DoubleV (humidityAt w kH))] else [])
  ++ (if due w SID_COUNTER
      then [Emit sigCounter
                 (LongV (int_wrap (counter (sensors (app w) SID_COUNTER) + 1)))]
      else []).


(** What holds of a pending timer: it is set to the earliest due time, a
    time below [SIMTIME_MAX] and not in the past. *)
Definition armed_ok {RT : Runtime} (w : World) : Prop :=
  forall t, fes w = Some t ->
            t = earliestNextDue (app w) /\ t < SIMTIME_MAX /\ simTime w <= t.

(** The packet [sampleAndSendIfDue] builds in [w] from the local variables
    [l], before it is tagged. *)
Definition packetOf {RT : Runtime} {SB : SensorBits} {PAR : Params}
           (w : World) (l : Locals) : Packet :=
  mkPacket "sensorAggUplink"
           (mkLoRaSensorPacket (bitmap l) (temperature l) (no2 l) (humidity l)
                               (counterVal l) getFullPath (simTime w)
                               (payloadBytes (basePayloadBytes (app w)) (bitmap l)))
           None.

(** A reading as the list of values emitted for it. *)
Definition readingOf (d : option Q) : list Value :=
  match d with
  | Some x => [DoubleV x]
  | None => []
  end.
(** ** Concrete configurations *)

(** Presence bits 1, 2, 4, 8. *)
Definition bits1248 : SensorBits :=
  {| SB_NONE := 0; SB_TEMPERATURE := 1; SB_NO2 := 2; SB_HUMIDITY := 4; SB_COUNTER := 8 |}.

(** A runtime whose k-th uniform draw is [u k] and whose k-th normal draw
    is k/10; a cubic stands in for [sin]. *)
Definition runtimeWith (u : nat -> Q) : Runtime :=
  {| SIMTIME_MAX := 9223372;
     sin := fun x => x - x * x * x / 6;
     M_PI := 355 # 113;
     dBmW2mW := fun x => x;
     getFullPath := "net.node[0].app";
     doubleRand := u;
     stdNormal := fun k => inject_Z (Z.of_nat k) / 10 |}.

Definition runtimeHalf : Runtime := runtimeWith (fun _ => 1 # 2).

(** Parameters with the given intervals (temperature, NO2, humidity,
    counter) and jitter fraction. *)
Definition paramsWith (tInt nInt hInt cInt jf : Q) : Params :=
  {| par_temperatureInterval := tInt;
     par_no2Interval := nInt;
     par_humidityInterval := hInt;
     par_counterInterval := cInt;
     par_intervalJitterFraction := jf;
     par_baseTemperature := 20;
     par_amplitudeTemperature := 5;
     par_baseHumidity := 50;
     par_amplitudeHumidity := 10;
     par_baseNO2 := 1;
     par_amplitudeNO2 := 1;
     par_initialLoRaTP := 14;
     par_initialLoRaCF := 868000000;
     par_initialLoRaSF := 12;
     par_initialLoRaBW := 125000;
     par_initialLoRaCR := 4;
     par_basePayloadBytes := 10;
     par_counterPayloadBytes := 4 |}.

(** Temperature every 10 s, humidity every 100 s, the rest disabled. *)
Definition paramsTH : Params := paramsWith 10 0 100 0 (1 # 10).

(** The node after start-up at time 0, without a radio. *)
Definition simTH : Sim :=
  startup (RT := runtimeHalf) (PAR := paramsTH) (fun i => i) None 0.

(** The world a node's callback sees when its pending timer arrives. *)
Definition atTimer (s : Sim) : World :=
  match fes (world s) with
  | Some t => timerArrival (world s) t
  | None => world s
  end.

(** The same node when its first timer arrives, at time 10. *)
Definition worldTH_at10 : World := atTimer simTH.

(** Temperature and humidity both every 10 s: both due at the first timer. *)
Definition paramsBoth : Params := paramsWith 10 0 10 0 (1 # 10).

Definition simBoth : Sim :=
  startup (RT := runtimeHalf) (PAR := paramsBoth) (fun i => i) None 0.

(** Temperature every 10 s, humidity disabled. *)
Definition paramsNoHum : Params := paramsWith 10 0 0 0 (1 # 10).

Definition simNoHum : Sim :=
  startup (RT := runtimeHalf) (PAR := paramsNoHum) (fun i => i) None 0.

(** Only the counter, every 10 s, without jitter. *)
Definition paramsCounter : Params := paramsWith 0 0 0 10 0.

Definition simCounter : Sim :=
  startup (RT := runtimeHalf) (PAR := paramsCounter) (fun i => i) None 0.

(** Temperature every 10 s with a jitter fraction of 3/2; the first uniform
    draw is 1/2 (no offset), the later ones are 1/6 (offset -10). *)
Definition runtimeStall : Runtime :=
  runtimeWith (fun k => match k with O => 1 # 2 | S _ => 1 # 6 end).



(** Temperature every 10 s with a negative jitter fraction. *)
Definition paramsNegative : Params := paramsWith 10 0 0 0 (- (1 # 10)).

Definition simNegative : Sim :=
  startup (RT := runtimeHalf) (PAR := paramsNegative) (fun i => i) None 0.

(** A radio whose parameters differ from the configured initial ones. *)
Definition radio7 : LoRaRadio := mkLoRaRadio 2 433000000 7 250000 1.

Definition simRadio : Sim :=
  startup (RT := runtimeHalf) (PAR := paramsTH) (fun i => i) (Some radio7) 0.

(** A path-loss environment: 10 m of foliage; [pow] and the free-space loss
    are stand-ins. *)
Definition envFoliage10 : WeissbergerPathLoss.Env :=
  {| WeissbergerPathLoss.pow := fun x _ => x;
     WeissbergerPathLoss.FreeSpacePathLoss_computePathLoss := fun _ _ => 100;
     WeissbergerPathLoss.par_vegetationDepth := 10 |}.


(** Every quantity disabled. *)
Definition paramsNone : Params := paramsWith 0 0 0 0 (1 # 10).

Definition simNone : Sim :=
  startup (RT := runtimeHalf) (PAR := paramsNone) (fun i => i) None 0.

(** A stand-in for [sin] that stays within [-1, 1]: the cubic, clamped. *)
Definition clampUnit (x : Q) : Q :=
  if Qle_bool x (-1) then -1 else if Qle_bool 1 x then 1 else x.

Definition runtimeClamped : Runtime :=
  {| SIMTIME_MAX := 9223372;
     sin := fun x => clampUnit (x - x * x * x / 6);
     M_PI := 355 # 113;
     dBmW2mW := fun x => x;
     getFullPath := "net.node[0].app";
     doubleRand := fun _ => 1 # 2;
     stdNormal := fun k => inject_Z (Z.of_nat k) / 10 |}.

Definition simClamped : Sim :=
  startup (RT := runtimeClamped) (PAR := paramsTH) (fun i => i) None 0.

(** A path-loss environment whose [pow] is a non-negative constant: 20 m of
    foliage. *)
Definition envFoliage20 : WeissbergerPathLoss.Env :=
  {| WeissbergerPathLoss.pow := fun _ _ => 2;
     WeissbergerPathLoss.FreeSpacePathLoss_computePathLoss := fun d _ => d;
     WeissbergerPathLoss.par_vegetationDepth := 20 |}.
(** * Lemmas on the loop *)

Section Properties.
Context {RT : Runtime} {SB : SensorBits} {PAR : Params}.

Lemma SensorID_eqb_eq a b : SensorID_eqb a b = true <-> a = b.
Proof. destruct a, b; simpl; split; intro H; try reflexivity; discriminate. Qed.

Lemma SensorID_eqb_refl a : SensorID_eqb a a = true.
Proof. destruct a; reflexivity. Qed.

Lemma SensorID_eqb_neq a b : a <> b -> SensorID_eqb a b = false.
Proof.
  intro H. destruct (SensorID_eqb a b) eqn:E; [|reflexivity].
  apply SensorID_eqb_eq in E. contradiction.
Qed.

Lemma upd_same i s f : upd i s f i = s.
Proof. unfold upd. rewrite SensorID_eqb_refl. reflexivity. Qed.

Lemma upd_other i j s f : j <> i -> upd i s f j = f j.
Proof. intro H. unfold upd. rewrite (SensorID_eqb_neq j i H). reflexivity. Qed.

Lemma static_refl w : static w w.
Proof.
  unfold static. repeat split. destruct w as [a t n r f]. destruct a. reflexivity.
Qed.

Lemma static_trans w1 w2 w3 : static w1 w2 -> static w2 w3 -> static w1 w3.
Proof.
  unfold static. intros (T1 & R1 & F1 & A1) (T2 & R2 & F2 & A2).
  repeat split; try congruence.
  rewrite A2. rewrite A1. reflexivity.
Qed.

Lemma sampleSensor_T i l w :
  sensor_id (sensors (app w) i) = SID_TEMPERATURE ->
  sampleSensor i l w =
    (mkLocals (Z.lor (Z.lor (bitmap l) SB_TEMPERATURE) SB_HUMIDITY)
              (Some (result (genTemperature w)))
              (Some (humidityAt w (S (rng w)))) (no2 l) (counterVal l),
     set_rng (S (S (rng w))) w,
     [Emit sigTemp (DoubleV (result (genTemperature w)));
      Emit sigHum (DoubleV (humidityAt w (S (rng w))))]).
Proof.
  intro H. unfold sampleSensor. unfold bind at 1. unfold getWorld at 1. cbv beta iota. rewrite H.
  reflexivity.
Qed.

Lemma sampleSensor_N i l w :
  sensor_id (sensors (app w) i) = SID_NO2 ->
  exists n w',
    sampleSensor i l w =
      (mkLocals (Z.lor (bitmap l) SB_NO2) (temperature l) (humidity l) (Some n)
                (counterVal l), w', [Emit sigNO2 (DoubleV n)]) /\
    w' = set_app (set_sensors (upd i (set_lastValue (Some n) (sensors (app w) i))
                                   (sensors (app w))) (app w))
                 (set_rng (S (rng w)) w).
Proof.
  intro H. unfold sampleSensor. unfold bind at 1. unfold getWorld at 1.
  cbv beta iota. rewrite H. do 2 eexists. split; reflexivity.
Qed.

Lemma sampleSensor_H i l w :
  sensor_id (sensors (app w) i) = SID_HUMIDITY ->
  sampleSensor i l w =
    (mkLocals (Z.lor (bitmap l) SB_HUMIDITY) (temperature l)
              (Some (humidityAt w (rng w))) (no2 l) (counterVal l),
     set_app (set_sensors (upd i (set_lastValue (Some (humidityAt w (rng w)))
                                                (sensors (app w) i))
                               (sensors (app w))) (app w))
             (set_rng (S (rng w)) w),
     [Emit sigHum (DoubleV (humidityAt w (rng w)))]).
Proof.
  intro H. unfold sampleSensor. unfold bind at 1. unfold getWorld at 1.
  cbv beta iota. rewrite H. destruct w as [a t n r f]. reflexivity.
Qed.

Lemma sampleSensor_C i l w :
  sensor_id (sensors (app w) i) = SID_COUNTER ->
  sampleSensor i l w =
    (mkLocals (Z.lor (bitmap l) SB_COUNTER) (temperature l) (humidity l) (no2 l)
              (int_wrap (counter (sensors (app w) i) + 1)),
     set_app (set_sensors (upd i (set_counter (int_wrap (counter (sensors (app w) i) + 1))
                                              (sensors (app w) i))
                               (sensors (app w))) (app w)) w,
     [Emit sigCounter (LongV (int_wrap (counter (sensors (app w) i) + 1)))]).
Proof.
  intro H. unfold sampleSensor. unfold bind at 1. unfold getWorld at 1.
  cbv beta iota. rewrite H.
  unfold bind, modifySensor, getWorld, emit, ret. cbn [app sensors set_app set_sensors].
  rewrite upd_same. cbn [counter set_counter]. reflexivity.
Qed.

Lemma recomputeNextDue_eq now i w :
  recomputeNextDue now i w =
    (tt,
     (if Qlt_bool 0 (interval (sensors (app w) i)) then
        let jitter := interval (sensors (app w) i) * jitterFrac (app w) in
        let u := - jitter + doubleRand (rng w) * (jitter - - jitter) in
        set_app (set_sensors
                   (upd i (set_nextDue (now + interval (sensors (app w) i) + u)
                                       (sensors (app w) i))
                        (sensors (app w))) (app w))
                (set_rng (S (rng w)) w)
      else
        set_app (set_sensors (upd i (set_nextDue SIMTIME_MAX (sensors (app w) i))
                                  (sensors (app w))) (app w)) w),
     []).
Proof.
  unfold recomputeNextDue. unfold bind at 1. unfold getWorld at 1. cbv beta iota.
  destruct (Qlt_bool 0 (interval (sensors (app w) i))); reflexivity.
Qed.

Lemma loopBody_eq now i l w :
  loopBody now i l w =
    if Qle_bool (nextDue (sensors (app w) i)) now then
      (result (sampleSensor i l w),
       final (recomputeNextDue now i (final (sampleSensor i l w))),
       output (sampleSensor i l w))
    else (l, w, []).
Proof.
  unfold loopBody. unfold bind at 1. unfold getWorld at 1. cbv beta iota.
  destruct (Qle_bool (nextDue (sensors (app w) i)) now); [|reflexivity].
  unfold bind. destruct (sampleSensor i l w) as [[l' w1] o1].
  unfold ret, result, final, output. cbn [fst snd].
  rewrite recomputeNextDue_eq. cbn [fst snd app].
  rewrite app_nil_r. reflexivity.
Qed.

(** Bits. *)
Lemma land_lor_same b x : Z.land (Z.lor b x) x = x.
Proof.
  apply Z.bits_inj'. intros n _. rewrite Z.land_spec, Z.lor_spec.
  destruct (Z.testbit b n), (Z.testbit x n); reflexivity.
Qed.

Lemma bit_set_lor_l b x m : bit_set b m = true -> bit_set (Z.lor b x) m = true.
Proof.
  unfold bit_set. rewrite !negb_true_iff, !Z.eqb_neq. intros H E. apply H.
  rewrite Z.land_lor_distr_l in E. apply Z.lor_eq_0_iff in E. tauto.
Qed.

Lemma bit_set_lor_r b x : x <> 0%Z -> bit_set (Z.lor b x) x = true.
Proof.
  intro H. unfold bit_set. rewrite land_lor_same.
  apply negb_true_iff, Z.eqb_neq. exact H.
Qed.

Lemma bit_set_lor_disjoint b x m :
  Z.land x m = 0%Z -> bit_set (Z.lor b x) m = bit_set b m.
Proof.
  intro H. unfold bit_set. rewrite Z.land_lor_distr_l, H, Z.lor_0_r. reflexivity.
Qed.

Lemma bit_set_0 m : bit_set 0 m = false.
Proof. unfold bit_set. rewrite Z.land_0_l. reflexivity. Qed.

Lemma bit_set_nonzero b m : bit_set b m = true -> b <> 0%Z.
Proof. intros H E. subst b. rewrite bit_set_0 in H. discriminate. Qed.

Lemma static_set_sensors_rng g n w :
  static w (set_app (set_sensors g (app w)) (set_rng n w)).
Proof. destruct w as [a t k r f]; destruct a; repeat split. Qed.

Lemma sent_app o1 o2 : sent (o1 ++ o2) = sent o1 ++ sent o2.
Proof. unfold sent. apply flat_map_app. Qed.

Lemma emitted_app s o1 o2 : emitted s (o1 ++ o2) = emitted s o1 ++ emitted s o2.
Proof. unfold emitted. apply flat_map_app. Qed.

Lemma static_set_rng n w : static w (set_rng n w).
Proof. destruct w as [a t k r f]; destruct a; repeat split. Qed.

Lemma static_set_sensors g w : static w (set_app (set_sensors g (app w)) w).
Proof. destruct w as [a t k r f]; destruct a; repeat split. Qed.

Ltac upd_field :=
  unfold upd;
  match goal with
  | |- context [SensorID_eqb ?j ?i] =>
      let E := fresh "E" in
      destruct (SensorID_eqb j i) eqn:E;
      [apply SensorID_eqb_eq in E; subst; reflexivity | reflexivity]
  end.

Ltac splits := repeat match goal with |- _ /\ _ => split end.

Ltac frame_goal :=
  cbn [fst snd];
  first
    [ apply static_set_rng
    | apply static_set_sensors
    | apply static_set_sensors_rng
    | (apply bit_set_lor_l; assumption)
    | (do 2 apply bit_set_lor_l; assumption)
    | (cbn [fst snd bitmap app rng sensors simTime radio fes
            set_app set_rng set_sensors set_nextDue set_lastValue set_counter
            sensor_id interval nextDue isCounter lastValue counter];
       first
         [ reflexivity
         | lia
         | (apply upd_other; assumption)
         | upd_field ]) ].

Lemma sampleSensor_spec i l w :
  let r := sampleSensor i l w in
  static w (final r) /\
  (rng w <= rng (final r))%nat /\
  (forall j, j <> i -> sensors (app (final r)) j = sensors (app w) j) /\
  (forall j, sensor_id (sensors (app (final r)) j) = sensor_id (sensors (app w) j) /\
             interval (sensors (app (final r)) j) = interval (sensors (app w) j) /\
             nextDue (sensors (app (final r)) j) = nextDue (sensors (app w) j) /\
             isCounter (sensors (app (final r)) j) = isCounter (sensors (app w) j)) /\
  sent (output r) = [] /\
  (forall m, bit_set (bitmap l) m = true -> bit_set (bitmap (result r)) m = true).
Proof.
  destruct (sensor_id (sensors (app w) i)) eqn:E.
  - rewrite (sampleSensor_T i l w E). unfold result, final, output.
    splits; intros; splits; frame_goal.
  - destruct (sampleSensor_N i l w E) as (n & w' & -> & ->).
    unfold result, final, output.
    splits; intros; splits; frame_goal.
  - rewrite (sampleSensor_H i l w E). unfold result, final, output.
    splits; intros; splits; frame_goal.
  - rewrite (sampleSensor_C i l w E). unfold result, final, output.
    splits; intros; splits; frame_goal.
Qed.

Lemma recomputeNextDue_spec now i w :
  let r := recomputeNextDue now i w in
  static w (final r) /\
  (rng w <= rng (final r))%nat /\
  (forall j, j <> i -> sensors (app (final r)) j = sensors (app w) j) /\
  (forall j, sensor_id (sensors (app (final r)) j) = sensor_id (sensors (app w) j) /\
             interval (sensors (app (final r)) j) = interval (sensors (app w) j) /\
             lastValue (sensors (app (final r)) j) = lastValue (sensors (app w) j) /\
             counter (sensors (app (final r)) j) = counter (sensors (app w) j) /\
             isCounter (sensors (app (final r)) j) = isCounter (sensors (app w) j)) /\
  output r = [].
Proof.
  rewrite recomputeNextDue_eq. unfold result, final, output.
  destruct (Qlt_bool 0 (interval (sensors (app w) i)));
    splits; intros; splits; frame_goal.
Qed.


Lemma loopBody_not_due now i l w :
  Qle_bool (nextDue (sensors (app w) i)) now = false -> loopBody now i l w = (l, w, []).
Proof. intro H. rewrite loopBody_eq, H. reflexivity. Qed.

Lemma loopBody_spec now i l w :
  let r := loopBody now i l w in
  static w (final r) /\
  (rng w <= rng (final r))%nat /\
  (forall j, j <> i -> sensors (app (final r)) j = sensors (app w) j) /\
  (forall j, sensor_id (sensors (app (final r)) j) = sensor_id (sensors (app w) j) /\
             interval (sensors (app (final r)) j) = interval (sensors (app w) j) /\
             isCounter (sensors (app (final r)) j) = isCounter (sensors (app w) j)) /\
  sent (output r) = [] /\
  (forall m, bit_set (bitmap l) m = true -> bit_set (bitmap (result r)) m = true).
Proof.
  cbv zeta. rewrite loopBody_eq.
  destruct (Qle_bool (nextDue (sensors (app w) i)) now).
  - destruct (sampleSensor_spec i l w) as (S1 & S2 & S3 & S4 & S5 & S6).
    destruct (recomputeNextDue_spec now i (final (sampleSensor i l w)))
      as (R1 & R2 & R3 & R4 & _).
    unfold result, final, output in *. cbn [fst snd] in *.
    splits.
    + eapply static_trans; eassumption.
    + lia.
    + intros j Hj. rewrite (R3 j Hj). apply S3; exact Hj.
    + intro j. destruct (R4 j) as (a & b & _ & _ & c).
      destruct (S4 j) as (a' & b' & _ & c'). splits; congruence.
    + exact S5.
    + exact S6.
  - unfold result, final, output. cbn [fst snd].
    splits; auto using static_refl.
Qed.

Lemma forEach_cons {A} i rest (f : SensorID -> A -> M A) a w :
  forEach (i :: rest) f a w =
    (result (forEach rest f (result (f i a w)) (final (f i a w))),
     final (forEach rest f (result (f i a w)) (final (f i a w))),
     output (f i a w) ++ output (forEach rest f (result (f i a w)) (final (f i a w)))).
Proof.
  cbn [forEach]. unfold bind. destruct (f i a w) as [[a' w1] o1].
  unfold result, final, output. cbn [fst snd].
  destruct (forEach rest f a' w1) as [[a'' w2] o2]. reflexivity.
Qed.

(** Induction over the iterations of a loop: [done] lists the indices
    already visited. *)
Lemma forEach_ind {A} (f : SensorID -> A -> M A)
      (P : list SensorID -> A -> World -> list Event -> Prop) :
  (forall done i a w o,
      P done a w o ->
      P (done ++ [i]) (result (f i a w)) (final (f i a w)) (o ++ output (f i a w))) ->
  forall ids done a w o,
    P done a w o ->
    P (done ++ ids) (result (forEach ids f a w)) (final (forEach ids f a w))
      (o ++ output (forEach ids f a w)).
Proof.
  intros Hstep ids. induction ids as [|i rest IH]; intros done a w o H.
  - cbn. rewrite !app_nil_r. exact H.
  - rewrite forEach_cons. unfold result, final, output. cbn [fst snd].
    specialize (IH (done ++ [i]) _ _ _ (Hstep done i a w o H)).
    rewrite <- !app_assoc in IH. cbn [List.app] in IH. exact IH.
Qed.

Lemma loop_spec now ids l w :
  let r := forEach ids (loopBody now) l w in
  static w (final r) /\
  (rng w <= rng (final r))%nat /\
  (forall j, ~ In j ids -> sensors (app (final r)) j = sensors (app w) j) /\
  (forall j, sensor_id (sensors (app (final r)) j) = sensor_id (sensors (app w) j) /\
             interval (sensors (app (final r)) j) = interval (sensors (app w) j) /\
             isCounter (sensors (app (final r)) j) = isCounter (sensors (app w) j)) /\
  sent (output r) = [] /\
  (forall m, bit_set (bitmap l) m = true -> bit_set (bitmap (result r)) m = true).
Proof.
  revert l w. induction ids as [|i rest IH]; intros l w.
  - cbn. splits; auto using static_refl.
  - cbv zeta. rewrite forEach_cons.
    destruct (loopBody_spec now i l w) as (B1 & B2 & B3 & B4 & B5 & B6).
    destruct (IH (result (loopBody now i l w)) (final (loopBody now i l w)))
      as (I1 & I2 & I3 & I4 & I5 & I6).
    unfold result, final, output in *. cbn [fst snd] in *.
    splits.
    + eapply static_trans; eassumption.
    + lia.
    + intros j Hj. rewrite I3, B3; [reflexivity| |]; intro; apply Hj; cbn; auto.
    + intro j. destruct (B4 j) as (? & ? & ?). destruct (I4 j) as (? & ? & ?).
      splits; congruence.
    + rewrite sent_app, B5, I5. reflexivity.
    + auto.
Qed.

Lemma attachLoRaTag_final pkt w : final (attachLoRaTag pkt w) = w.
Proof.
  unfold attachLoRaTag, final.
  destruct (negb (loRaRadio (app w))); [reflexivity|]. destruct (radio w); reflexivity.
Qed.

Lemma attachLoRaTag_output pkt w : output (attachLoRaTag pkt w) = [].
Proof.
  unfold attachLoRaTag, output.
  destruct (negb (loRaRadio (app w))); [reflexivity|]. destruct (radio w); reflexivity.
Qed.

(** The packet [sampleAndSendIfDue] builds from its local variables. *)
Lemma sampleAndSendIfDue_eq w :
  let r := forEach SID_range (loopBody (simTime w))
                   (mkLocals SB_NONE None None None 0%Z) w in
  let l := result r in
  sampleAndSendIfDue w =
    if (bitmap l =? SB_NONE)%Z then (tt, final r, output r)
    else
      (tt, final r,
       output r ++
       [Send (result (attachLoRaTag
                        (mkPacket "sensorAggUplink"
                           (mkLoRaSensorPacket (bitmap l) (temperature l) (no2 l)
                              (humidity l) (counterVal l) getFullPath (simTime w)
                              (payloadBytes (basePayloadBytes (app (final r))) (bitmap l)))
                           None)
                        (final r))) "socketOut";
        Emit sigPktSent (LongV (bitmap l))]).
Proof.
  cbv zeta. unfold sampleAndSendIfDue. unfold bind at 1. unfold getWorld at 1.
  cbv beta iota. unfold bind at 1.
  destruct (forEach SID_range (loopBody (simTime w))
                    (mkLocals SB_NONE None None None 0%Z) w) as [[l w1] o1].
  unfold result, final, output. cbn [fst snd].
  destruct (bitmap l =? SB_NONE)%Z.
  - unfold ret. rewrite app_nil_r. reflexivity.
  - unfold bind, getWorld, send, emit.
    match goal with
    | |- context [attachLoRaTag ?p w1] =>
        pose proof (attachLoRaTag_final p w1) as F;
        pose proof (attachLoRaTag_output p w1) as O;
        destruct (attachLoRaTag p w1) as [[p' w2] o2]
    end.
    unfold final, output in F, O. cbn [fst snd] in F, O. subst w2 o2.
    reflexivity.
Qed.

Lemma attachLoRaTag_payload pkt w :
  payload (result (attachLoRaTag pkt w)) = payload pkt.
Proof.
  unfold attachLoRaTag, result.
  destruct (negb (loRaRadio (app w))); [reflexivity|]. destruct (radio w); reflexivity.
Qed.

Lemma attachLoRaTag_null pkt w :
  loRaRadio (app w) = false -> attachLoRaTag pkt w = (pkt, w, []).
Proof. intro H. unfold attachLoRaTag. rewrite H. reflexivity. Qed.

(** What a wake-up sends and where it leaves the module, in terms of the
    loop. *)
Lemma sampleAndSendIfDue_final w :
  final (sampleAndSendIfDue w) =
  final (forEach SID_range (loopBody (simTime w)) (mkLocals SB_NONE None None None 0%Z) w).
Proof.
  rewrite sampleAndSendIfDue_eq.
  destruct (_ =? _)%Z; reflexivity.
Qed.

Lemma sampleAndSendIfDue_sent w :
  let r := forEach SID_range (loopBody (simTime w))
                   (mkLocals SB_NONE None None None 0%Z) w in
  let l := result r in
  sent (output (sampleAndSendIfDue w)) =
    if (bitmap l =? SB_NONE)%Z then []
    else
      [result (attachLoRaTag
                 (mkPacket "sensorAggUplink"
                    (mkLoRaSensorPacket (bitmap l) (temperature l) (no2 l)
                       (humidity l) (counterVal l) getFullPath (simTime w)
                       (payloadBytes (basePayloadBytes (app (final r))) (bitmap l)))
                    None)
                 (final r))].
Proof.
  cbv zeta. rewrite sampleAndSendIfDue_eq.
  destruct (loop_spec (simTime w) SID_range (mkLocals SB_NONE None None None 0%Z) w)
    as (_ & _ & _ & _ & S & _).
  destruct (_ =? _)%Z; unfold output in *; cbn [snd] in *.
  - exact S.
  - rewrite sent_app, S. reflexivity.
Qed.

Lemma static_basePayloadBytes w w' :
  static w w' -> basePayloadBytes (app w') = basePayloadBytes (app w).
Proof. intros (_ & _ & _ & E). rewrite E. reflexivity. Qed.

Lemma static_jitterFrac w w' : static w w' -> jitterFrac (app w') = jitterFrac (app w).
Proof. intros (_ & _ & _ & E). rewrite E. reflexivity. Qed.

Lemma static_loRaRadio w w' : static w w' -> loRaRadio (app w') = loRaRadio (app w).
Proof. intros (_ & _ & _ & E). rewrite E. reflexivity. Qed.

Lemma static_scheduler w w' : static w w' -> scheduler (app w') = scheduler (app w).
Proof. intros (_ & _ & _ & E). rewrite E. reflexivity. Qed.

Lemma Qlt_bool_iff a b : Qlt_bool a b = true <-> a < b.
Proof.
  unfold Qlt_bool. rewrite negb_true_iff. split.
  - intro H. apply Qnot_le_lt. intro L. apply Qle_bool_iff in L. congruence.
  - intro H. destruct (Qle_bool b a) eqn:E; [|reflexivity].
    apply Qle_bool_iff in E. exfalso. exact (Qlt_not_le _ _ H E).
Qed.

Lemma Qlt_bool_false_iff a b : Qlt_bool a b = false <-> b <= a.
Proof.
  unfold Qlt_bool. rewrite negb_false_iff. apply Qle_bool_iff.
Qed.

Lemma Qle_bool_false_iff a b : Qle_bool a b = false <-> b < a.
Proof.
  rewrite <- Qlt_bool_iff. unfold Qlt_bool. rewrite negb_true_iff. reflexivity.
Qed.




(** ** Start-up and the driver *)

Lemma initSensor_spec id interval_ isCounter_ w :
  let r := initSensor id interval_ isCounter_ w in
  let jitter := interval_ * jitterFrac (app w) in
  static w (final r) /\
  output r = [] /\
  (forall j, j <> id -> sensors (app (final r)) j = sensors (app w) j) /\
  sensor_id (sensors (app (final r)) id) = id /\
  interval (sensors (app (final r)) id) = interval_ /\
  counter (sensors (app (final r)) id) = 0%Z /\
  nextDue (sensors (app (final r)) id) =
    (if Qlt_bool 0 interval_
     then simTime w + interval_ + (- jitter + doubleRand (rng w) * (jitter - - jitter))
     else SIMTIME_MAX).
Proof.
  unfold initSensor, bind, modifySensor, getWorld, uniform, result, final, output.
  destruct (Qlt_bool 0 interval_);
    cbn [app sensors set_app set_sensors set_rng rng simTime radio fes jitterFrac
         fst snd List.app];
    rewrite ?upd_same;
    cbn [set_nextDue sensor_id interval lastValue counter isCounter nextDue];
    splits; try reflexivity.
  - destruct w as [a t n r f]; destruct a; repeat split.
  - intros j Hj. rewrite !upd_other by exact Hj. reflexivity.
  - destruct w as [a t n r f]; destruct a; repeat split.
  - intros j Hj. rewrite !upd_other by exact Hj. reflexivity.
Qed.

(** The module after stage 0 of [initialize]. *)
Lemma initialize_local_spec w :
  exists w',
    initialize INITSTAGE_LOCAL w = (Returned w', []) /\
    simTime w' = simTime w /\ radio w' = radio w /\ fes w' = fes w /\
    loRaRadio (app w') =
      (match radio w with Some _ => true | None => loRaRadio (app w) end) /\
    jitterFrac (app w') = par_intervalJitterFraction /\
    initTPdBm (app w') = par_initialLoRaTP /\
    initCFHz (app w') = par_initialLoRaCF /\
    initSF (app w') = int_wrap par_initialLoRaSF /\
    initBWHZ (app w') = par_initialLoRaBW /\
    initCR (app w') = int_wrap par_initialLoRaCR /\
    (forall i,
        sensor_id (sensors (app w') i) = i /\
        interval (sensors (app w') i) = par_interval i /\
        counter (sensors (app w') i) = 0%Z /\
        (par_interval i <= 0 -> nextDue (sensors (app w') i) = SIMTIME_MAX) /\
        (0 < par_interval i ->
         exists k,
           let jitter := par_interval i * par_intervalJitterFraction in
           nextDue (sensors (app w') i) =
             simTime w + par_interval i
             + (- jitter + doubleRand k * (jitter - - jitter)))).
Proof.
  unfold initialize. unfold bind.
  match goal with
  | |- context [initSensor SID_TEMPERATURE ?iv ?c ?w0] =>
      pose proof (initSensor_spec SID_TEMPERATURE iv c w0) as HT;
      destruct (initSensor SID_TEMPERATURE iv c w0) as [[u1 w1] o1]
  end.
  pose proof (initSensor_spec SID_NO2 par_no2Interval false w1) as HN.
  destruct (initSensor SID_NO2 par_no2Interval false w1) as [[u2 w2] o2].
  pose proof (initSensor_spec SID_HUMIDITY par_humidityInterval false w2) as HH.
  destruct (initSensor SID_HUMIDITY par_humidityInterval false w2) as [[u3 w3] o3].
  pose proof (initSensor_spec SID_COUNTER par_counterInterval true w3) as HC.
  destruct (initSensor SID_COUNTER par_counterInterval true w3) as [[u4 w4] o4].
  cbv zeta in HT, HN, HH, HC. unfold final, output in HT, HN, HH, HC.
  cbn [fst snd] in HT, HN, HH, HC.
  destruct HT as (ST & OT & FT & T1 & T2 & T3 & T4).
  destruct HN as (SN & ON & FN & N1 & N2 & N3 & N4).
  destruct HH as (SH & OH & FH & H1 & H2 & H3 & H4).
  destruct HC as (SC & OC & FC & C1 & C2 & C3 & C4).
  subst o1 o2 o3 o4.
  assert (S4 : static (set_app
                         (mkApp (scheduler (app w)) (sensors (app w))
                                par_intervalJitterFraction
                                par_baseTemperature par_amplitudeTemperature
                                par_baseNO2 par_amplitudeNO2
                                par_baseHumidity par_amplitudeHumidity
                                par_initialLoRaTP par_initialLoRaCF
                                (int_wrap par_initialLoRaSF)
                                par_initialLoRaBW (int_wrap par_initialLoRaCR)
                                (initUseHeader (app w)) (int_wrap par_basePayloadBytes)
                                (match radio w with
                                 | Some _ => true
                                 | None => loRaRadio (app w)
                                 end)) w) w4).
  { eapply static_trans; [exact ST|]. eapply static_trans; [exact SN|].
    eapply static_trans; [exact SH|]. exact SC. }
  pose proof (static_jitterFrac _ _ ST) as JT.
  pose proof (static_jitterFrac _ _ (static_trans _ _ _ ST SN)) as JN.
  pose proof (static_jitterFrac _ _ (static_trans _ _ _ (static_trans _ _ _ ST SN) SH)) as JH.
  destruct ST as (tT & _). destruct SN as (tN & _). destruct SH as (tH & _).
  cbn [app jitterFrac set_app simTime] in *.
  destruct S4 as (T & R & F & A).
  cbn [app set_app simTime radio fes] in T, R, F, A.
  eexists. split; [reflexivity|].
  cbn [app set_app simTime radio fes set_scheduler sensors loRaRadio jitterFrac
       initTPdBm initCFHz initSF initBWHZ initCR].
  rewrite A. cbn [set_sensors sensors loRaRadio jitterFrac
                  initTPdBm initCFHz initSF initBWHZ initCR].
  splits; try reflexivity; try assumption.
  intro i. destruct i; cbn [par_interval].
  - rewrite !FC, !FH, !FN by discriminate.
    splits; try assumption.
    + intro L. rewrite T4. apply Qlt_bool_false_iff in L. rewrite L. reflexivity.
    + intro L. rewrite T4. apply Qlt_bool_iff in L. rewrite L. eexists. reflexivity.
  - rewrite !FC, !FH by discriminate.
    splits; try assumption.
    + intro L. rewrite N4. apply Qlt_bool_false_iff in L. rewrite L. reflexivity.
    + intro L. rewrite N4. apply Qlt_bool_iff in L. rewrite L, JT, tT.
      eexists. reflexivity.
  - rewrite !FC by discriminate.
    splits; try assumption.
    + intro L. rewrite H4. apply Qlt_bool_false_iff in L. rewrite L. reflexivity.
    + intro L. rewrite H4. apply Qlt_bool_iff in L. rewrite L, JN, tN, tT.
      eexists. reflexivity.
  - splits; try assumption.
    + intro L. rewrite C4. apply Qlt_bool_false_iff in L. rewrite L. reflexivity.
    + intro L. rewrite C4. apply Qlt_bool_iff in L. rewrite L, JH, tH, tN, tT.
      eexists. reflexivity.
Qed.

Lemma after_world s r : world (after s r) = outcome_world (fst r).
Proof. destruct r as [[w|w] o]; reflexivity. Qed.

Lemma after_trace s r : trace (after s r) = trace s ++ snd r.
Proof. destruct r as [[w|w] o]; reflexivity. Qed.

Lemma scheduleNext_spec w :
  match scheduleNext w with
  | Some w' =>
      w' = w \/
      exists n, Qlt_bool n SIMTIME_MAX = true /\ Qle_bool (simTime w) n = true /\
                n = earliestNextDue (app w) /\ w' = set_fes (Some n) w
  | None => True
  end.
Proof.
  unfold scheduleNext, scheduleAt.
  destruct (Qlt_bool (earliestNextDue (app w)) SIMTIME_MAX) eqn:E; [|left; reflexivity].
  destruct (Qlt_bool (earliestNextDue (app w)) (simTime w)) eqn:E'; [exact I|].
  right. exists (earliestNextDue (app w)). splits; try reflexivity; try assumption.
  apply Qle_bool_iff. apply Qlt_bool_false_iff. exact E'.
Qed.

(** A wake-up: what [sampleAndSendIfDue] emits, then possibly a new arrival
    time for the timer. *)
Lemma handleMessage_scheduler w :
  exists o,
    handleMessage SchedulerMsg w = (o, output (sampleAndSendIfDue w)) /\
    (outcome_world o = final (sampleAndSendIfDue w) \/
     exists n, Qlt_bool n SIMTIME_MAX = true /\
               outcome_world o = set_fes (Some n) (final (sampleAndSendIfDue w))).
Proof.
  unfold handleMessage.
  destruct (sampleAndSendIfDue w) as [[u w1] o1]. unfold final, output. cbn [fst snd].
  pose proof (scheduleNext_spec w1) as H.
  destruct (scheduleNext w1) as [w2|].
  - eexists. split; [reflexivity|]. cbn [outcome_world].
    destruct H as [->|(n & L & _ & _ & ->)]; [left; reflexivity|].
    right. exists n. split; [exact L | reflexivity].
  - eexists. split; [reflexivity|]. left. reflexivity.
Qed.

(** The four things [deliver] can do. *)
Lemma deliver_cases s ev :
  deliver s ev = s \/
  (exists t, fes (world s) = Some t /\
             deliver s ev = after s (handleMessage SchedulerMsg (timerArrival (world s) t))) \/
  (exists t, deliver s ev = mkSim (set_simTime t (world s)) (trace s ++ []) true) \/
  deliver s ev = mkSim (finish (world s)) (trace s) false.
Proof.
  unfold deliver. destruct (negb (running s)); [left; reflexivity|].
  destruct ev as [|t b|].
  - destruct (fes (world s)) as [t|] eqn:E; [|left; reflexivity].
    right; left. exists t. split; reflexivity.
  - destruct (_ && _); [|left; reflexivity].
    right; right; left. exists t. destruct b; reflexivity.
  - right; right; right. reflexivity.
Qed.

Lemma run_invariant (I : Sim -> Prop) :
  (forall s ev, I s -> I (deliver s ev)) ->
  forall evs s, I s -> I (run s evs).
Proof.
  intros Hstep evs. induction evs as [|ev evs IH]; intros s H; [exact H|].
  cbn [run fold_left]. apply IH. apply Hstep. exact H.
Qed.

Lemma applyInitialLoRaParams_spec w :
  let r := applyInitialLoRaParams w in
  output r = [] /\ app (final r) = app w /\ simTime (final r) = simTime w /\
  fes (final r) = fes w /\ rng (final r) = rng w /\
  radio (final r) =
    (if loRaRadio (app w) then
       match radio w with
       | Some _ => Some (mkLoRaRadio (initTPdBm (app w)) (initCFHz (app w))
                                     (initSF (app w)) (initBWHZ (app w))
                                     (initCR (app w)))
       | None => None
       end
     else radio w).
Proof.
  unfold applyInitialLoRaParams, final, output.
  destruct (loRaRadio (app w)); cbn [negb]; [|splits; reflexivity].
  destruct (radio w) eqn:E; cbn [fst snd radio set_radio]; rewrite ?E;
    splits; reflexivity.
Qed.

(** The node after start-up. *)
Lemma startup_spec ids r0 t0 :
  let s := startup ids r0 t0 in
  let w := world s in
  trace s = [] /\
  radio w =
    match r0 with
    | Some _ => Some (mkLoRaRadio par_initialLoRaTP par_initialLoRaCF
                                  (int_wrap par_initialLoRaSF) par_initialLoRaBW
                                  (int_wrap par_initialLoRaCR))
    | None => None
    end /\
  loRaRadio (app w) = (match r0 with Some _ => true | None => false end) /\
  jitterFrac (app w) = par_intervalJitterFraction /\
  (forall t, fes w = Some t -> t < SIMTIME_MAX) /\
  (forall i,
      sensor_id (sensors (app w) i) = i /\
      interval (sensors (app w) i) = par_interval i /\
      counter (sensors (app w) i) = 0%Z /\
      (par_interval i <= 0 -> nextDue (sensors (app w) i) = SIMTIME_MAX) /\
      (0 < par_interval i ->
       exists k,
         let jitter := par_interval i * par_intervalJitterFraction in
         nextDue (sensors (app w) i) =
           t0 + par_interval i + (- jitter + doubleRand k * (jitter - - jitter)))).
Proof.
  cbv zeta. unfold startup. cbn [world].
  destruct (initialize_local_spec
              (mkWorld (App_default ids) t0 0%nat r0 None))
    as (w1 & E & T & R & F & L & J & P1 & P2 & P3 & P4 & P5 & S).
  rewrite E. cbn [after running world trace List.app].
  unfold initialize.
  pose proof (applyInitialLoRaParams_spec w1) as A. cbv zeta in A.
  destruct (applyInitialLoRaParams w1) as [[u w2] o2].
  unfold final, output in A. cbn [fst snd] in A.
  destruct A as (-> & A1 & A2 & A3 & A4 & A5).
  cbn [simTime radio fes app loRaRadio App_default] in T, R, F, L.
  assert (RR : radio w2 =
               match r0 with
               | Some _ => Some (mkLoRaRadio par_initialLoRaTP par_initialLoRaCF
                                             (int_wrap par_initialLoRaSF) par_initialLoRaBW
                                             (int_wrap par_initialLoRaCR))
               | None => None
               end).
  { rewrite A5, L, R, P1, P2, P3, P4, P5. destruct r0; reflexivity. }
  assert (LL : loRaRadio (app w2) = match r0 with Some _ => true | None => false end).
  { rewrite A1, L. reflexivity. }
  pose proof (scheduleNext_spec w2) as N.
  destruct (scheduleNext w2) as [w3|]; cbn [after world trace List.app].
  - destruct N as [->|(n & Ln & _ & _ & ->)].
    + splits; try assumption; try reflexivity.
      * rewrite A1. exact J.
      * intros t Ht. rewrite A3, F in Ht. discriminate.
      * intro i. rewrite A1. apply S.
    + cbn [radio app set_fes fes]. splits; try assumption; try reflexivity.
      * rewrite A1. exact J.
      * intros t Ht. injection Ht as <-. apply Qlt_bool_iff. exact Ln.
      * intro i. rewrite A1. apply S.
  - splits; try assumption; try reflexivity.
    + rewrite A1. exact J.
    + intros t Ht. rewrite A3, F in Ht. discriminate.
    + intro i. rewrite A1. apply S.
Qed.

Lemma sampleAndSendIfDue_static w : static w (final (sampleAndSendIfDue w)).
Proof. rewrite sampleAndSendIfDue_final. apply loop_spec. Qed.

Lemma finish_radio w : radio (finish w) = radio w.
Proof. unfold finish. destruct (scheduler (app w)); reflexivity. Qed.

Lemma finish_sensors w : sensors (app (finish w)) = sensors (app w).
Proof. unfold finish. destruct (scheduler (app w)); reflexivity. Qed.

Lemma finish_loRaRadio w : loRaRadio (app (finish w)) = loRaRadio (app w).
Proof. unfold finish. destruct (scheduler (app w)); reflexivity. Qed.

Lemma SensorID_eq_dec (a b : SensorID) : {a = b} + {a <> b}.
Proof. decide equality. Qed.

Lemma bit_set_self b : b <> 0%Z -> bit_set b b = true.
Proof.
  intro H. unfold bit_set. rewrite Z.land_diag. apply negb_true_iff, Z.eqb_neq. exact H.
Qed.

Lemma loopBody_nonzero now i l w :
  bitmap l <> 0%Z -> bitmap (result (loopBody now i l w)) <> 0%Z.
Proof.
  intro H. destruct (loopBody_spec now i l w) as (_ & _ & _ & _ & _ & Mono).
  apply (bit_set_nonzero _ (bitmap l)). apply Mono, bit_set_self. exact H.
Qed.

Lemma loopBody_due_nonzero now i l w :
  SensorBits_ok ->
  Qle_bool (nextDue (sensors (app w) i)) now = true ->
  bitmap (result (loopBody now i l w)) <> 0%Z.
Proof.
  intros (_ & (T0 & N0 & H0 & C0) & _) Hdue.
  rewrite loopBody_eq, Hdue. unfold result at 1. cbn [fst].
  destruct (sensor_id (sensors (app w) i)) eqn:E.
  - rewrite (sampleSensor_T _ _ _ E). unfold result. cbn [fst bitmap].
    intro Z0. apply Z.lor_eq_0_iff in Z0. tauto.
  - destruct (sampleSensor_N _ l _ E) as (n & w' & -> & _). unfold result. cbn [fst bitmap].
    intro Z0. apply Z.lor_eq_0_iff in Z0. tauto.
  - rewrite (sampleSensor_H _ _ _ E). unfold result. cbn [fst bitmap].
    intro Z0. apply Z.lor_eq_0_iff in Z0. tauto.
  - rewrite (sampleSensor_C _ _ _ E). unfold result. cbn [fst bitmap].
    intro Z0. apply Z.lor_eq_0_iff in Z0. tauto.
Qed.

(** If any quantity is due, the loop leaves a non-empty bitmap. *)
Lemma loop_due_nonzero w i :
  SensorBits_ok ->
  due w i = true ->
  bitmap (result (forEach SID_range (loopBody (simTime w))
                          (mkLocals SB_NONE None None None 0%Z) w)) <> SB_NONE.
Proof.
  intros OK Hdue.
  pose (P := fun (done : list SensorID) (l : Locals) (w1 : World) (o : list Event) =>
               (~ In i done -> sensors (app w1) i = sensors (app w) i) /\
               (In i done -> bitmap l <> 0%Z)).
  assert (H : P ([] ++ SID_range)
                (result (forEach SID_range (loopBody (simTime w))
                                 (mkLocals SB_NONE None None None 0%Z) w))
                (final (forEach SID_range (loopBody (simTime w))
                                (mkLocals SB_NONE None None None 0%Z) w))
                ([] ++ output (forEach SID_range (loopBody (simTime w))
                                       (mkLocals SB_NONE None None None 0%Z) w))).
  { apply forEach_ind.
    - intros done j l w1 o (P1 & P2).
      destruct (loopBody_spec (simTime w) j l w1) as (_ & _ & B3 & _).
      split.
      + intro N. rewrite B3.
        * apply P1. intro; apply N, in_or_app; left; assumption.
        * intros ->. apply N, in_or_app; right; left; reflexivity.
      + intro I. destruct (in_dec SensorID_eq_dec i done) as [D|D].
        * apply loopBody_nonzero. apply P2. exact D.
        * apply in_app_or in I. destruct I as [I|[->|[]]]; [contradiction|].
          apply loopBody_due_nonzero; [exact OK|].
          rewrite (P1 D). exact Hdue.
    - split; [reflexivity | intros []]. }
  destruct H as (_ & H). destruct OK as (E0 & _).
  intro E. apply H; [destruct i; cbn; tauto | congruence].
Qed.


(** The jittered due time stays in its window, and beyond [now] when the
    jitter fraction is below one. *)
Lemma jitter_window (now I jf r : Q) :
  0 < I -> 0 <= jf -> 0 <= r <= 1 ->
  let jitter := I * jf in
  let x := now + I + (- jitter + r * (jitter - - jitter)) in
  now + I * (1 - jf) <= x <= now + I * (1 + jf) /\ (jf < 1 -> now < x).
Proof.
  intros HI Hjf [Hr0 Hr1] jitter x. subst jitter x.
  assert (A : 0 <= r * (I * jf)) by (apply Qmult_le_0_compat; [|apply Qmult_le_0_compat]; lra).
  assert (B : 0 <= (1 - r) * (I * jf))
    by (apply Qmult_le_0_compat; [|apply Qmult_le_0_compat]; lra).
  assert (C : jf < 1 -> 0 < I * (1 - jf)).
  { intro. apply Qmult_lt_0_compat; lra. }
  split; [split|intro L; specialize (C L)]; lra.
Qed.

Lemma result_tuple {A} (a : A) w o : result (a, w, o) = a.
Proof. reflexivity. Qed.

Lemma final_tuple {A} (a : A) w o : final (a, w, o) = w.
Proof. reflexivity. Qed.

Lemma output_tuple {A} (a : A) w o : output (a, w, o) = o.
Proof. reflexivity. Qed.

Ltac tuple_simpl := rewrite ?result_tuple, ?final_tuple, ?output_tuple.

Lemma forEach_one {A} i (f : SensorID -> A -> M A) a w : forEach [i] f a w = f i a w.
Proof.
  cbn [forEach]. unfold bind, ret. destruct (f i a w) as [[a' w'] o].
  rewrite app_nil_r. reflexivity.
Qed.


(** The bitmap after an iteration that fires. *)
Lemma loopBody_due_bitmap now i l w :
  Qle_bool (nextDue (sensors (app w) i)) now = true ->
  bitmap (result (loopBody now i l w)) =
    match sensor_id (sensors (app w) i) with
    | SID_TEMPERATURE => Z.lor (Z.lor (bitmap l) SB_TEMPERATURE) SB_HUMIDITY
    | SID_NO2 => Z.lor (bitmap l) SB_NO2
    | SID_HUMIDITY => Z.lor (bitmap l) SB_HUMIDITY
    | SID_COUNTER => Z.lor (bitmap l) SB_COUNTER
    end.
Proof.
  intro D. rewrite loopBody_eq, D. unfold result at 1. cbn [fst].
  destruct (sensor_id (sensors (app w) i)) eqn:E.
  - rewrite (sampleSensor_T _ _ _ E). reflexivity.
  - destruct (sampleSensor_N _ l _ E) as (n & w' & -> & _). reflexivity.
  - rewrite (sampleSensor_H _ _ _ E). reflexivity.
  - rewrite (sampleSensor_C _ _ _ E). reflexivity.
Qed.




Lemma sampleAndSendIfDue_ids_ok w : ids_ok w -> ids_ok (final (sampleAndSendIfDue w)).
Proof.
  intros H i. rewrite sampleAndSendIfDue_final.
  destruct (loop_spec (simTime w) SID_range (mkLocals SB_NONE None None None 0%Z) w)
    as (_ & _ & _ & S4 & _).
  destruct (S4 i) as (-> & _). apply H.
Qed.

(** An iteration that fires for an enabled quantity keeps the bitmap
    respectful of the disabled ones. *)
Lemma respects_disabled_step (disabled : SensorID -> Prop) (j : SensorID) (b : Z) :
  SensorBits_ok ->
  ~ disabled j ->
  respects_disabled disabled b ->
  respects_disabled disabled
    (match j with
     | SID_TEMPERATURE => Z.lor (Z.lor b SB_TEMPERATURE) SB_HUMIDITY
     | SID_NO2 => Z.lor b SB_NO2
     | SID_HUMIDITY => Z.lor b SB_HUMIDITY
     | SID_COUNTER => Z.lor b SB_COUNTER
     end).
Proof.
  intros (_ & (T0 & N0 & H0 & C0) & (TN & TH & TC & NH & NC & HC)) En R i Di.
  pose proof TN as NT; rewrite Z.land_comm in NT.
  pose proof TH as HT; rewrite Z.land_comm in HT.
  pose proof TC as CT; rewrite Z.land_comm in CT.
  pose proof NH as HN; rewrite Z.land_comm in HN.
  pose proof NC as CN; rewrite Z.land_comm in CN.
  pose proof HC as CH; rewrite Z.land_comm in CH.
  destruct (R i Di) as (R1 & R2).
  destruct j, i; try contradiction; cbn [SB_of] in *;
    (split; [intro NE; try (exfalso; apply NE; reflexivity) | intro EQ; try discriminate]);
    rewrite ?bit_set_lor_disjoint by assumption;
    try (apply R1; discriminate);
    try (intro B; apply bit_set_lor_l, bit_set_lor_r; assumption);
    try (intro B; apply R2; [reflexivity | exact B]).
Qed.

(** A wake-up before [SIMTIME_MAX] leaves the disabled quantities disabled
    and sends a packet whose bitmap respects them. *)
Lemma sampleAndSendIfDue_disabled w :
  SensorBits_ok ->
  ids_ok w ->
  (forall i, interval (sensors (app w) i) <= 0 ->
             nextDue (sensors (app w) i) = SIMTIME_MAX) ->
  simTime w < SIMTIME_MAX ->
  (forall i, interval (sensors (app w) i) <= 0 ->
             nextDue (sensors (app (final (sampleAndSendIfDue w))) i) = SIMTIME_MAX) /\
  (forall pkt, In pkt (sent (output (sampleAndSendIfDue w))) ->
               respects_disabled (fun i => interval (sensors (app w) i) <= 0)
                                 (getBitmap (payload pkt))).
Proof.
  intros OK IDS DIS NOW.
  set (l0 := mkLocals SB_NONE None None None 0%Z). set (now := simTime w).
  set (dis := fun i => interval (sensors (app w) i) <= 0).
  pose (P := fun (done : list SensorID) (l : Locals) (w1 : World) (o : list Event) =>
               (forall i, sensor_id (sensors (app w1) i) = i) /\
               (forall i, interval (sensors (app w1) i) = interval (sensors (app w) i)) /\
               (forall i, dis i -> nextDue (sensors (app w1) i) = SIMTIME_MAX) /\
               respects_disabled dis (bitmap l)).
  assert (H : P ([] ++ SID_range) (result (forEach SID_range (loopBody now) l0 w))
                (final (forEach SID_range (loopBody now) l0 w))
                ([] ++ output (forEach SID_range (loopBody now) l0 w))).
  { apply forEach_ind.
    - intros done j l w1 o (P1 & P2 & P3 & P4).
      destruct (loopBody_spec now j l w1) as (_ & _ & B3 & B4 & _).
      split; [intro i; destruct (B4 i) as (-> & _); apply P1|].
      split; [intro i; destruct (B4 i) as (_ & -> & _); apply P2|].
      destruct (Qle_bool (nextDue (sensors (app w1) j)) now) eqn:D.
      + assert (En : ~ dis j).
        { intro Dj. rewrite (P3 j Dj) in D. apply Qle_bool_iff in D.
          exact (Qlt_not_le _ _ NOW D). }
        split.
        * intros i Di. destruct (SensorID_eq_dec i j) as [->|NE]; [contradiction|].
          rewrite (B3 i NE). apply P3. exact Di.
        * rewrite (loopBody_due_bitmap _ _ _ _ D), P1.
          apply respects_disabled_step; assumption.
      + rewrite loopBody_not_due by exact D. tuple_simpl. split; assumption.
    - split; [exact IDS|]. split; [reflexivity|]. split; [exact DIS|].
      destruct OK as (E0 & _). cbn [bitmap l0]. rewrite E0.
      intros i _. split; intros; [apply bit_set_0 | rewrite bit_set_0 in *; discriminate]. }
  destruct H as (_ & _ & H3 & H4). split.
  - intros i Di. rewrite sampleAndSendIfDue_final. apply H3. exact Di.
  - intros pkt I. rewrite sampleAndSendIfDue_sent in I. fold l0 now in I.
    destruct (_ =? _)%Z; [contradiction|]. destruct I as [<-|[]].
    rewrite attachLoRaTag_payload. exact H4.
Qed.

(** The four iterations of the loop, one after the other. *)
Lemma loop_unrolled now l w :
  let r1 := loopBody now SID_TEMPERATURE l w in
  let r2 := loopBody now SID_NO2 (result r1) (final r1) in
  let r3 := loopBody now SID_HUMIDITY (result r2) (final r2) in
  let r4 := loopBody now SID_COUNTER (result r3) (final r3) in
  forEach SID_range (loopBody now) l w =
    (result r4, final r4, output r1 ++ output r2 ++ output r3 ++ output r4).
Proof.
  cbv zeta. unfold SID_range. do 3 rewrite forEach_cons. rewrite forEach_one.
  tuple_simpl. reflexivity.
Qed.

Lemma humidityAt_static w w' k : static w w' -> humidityAt w' k = humidityAt w k.
Proof.
  intros (T & _ & _ & A).
  unfold humidityAt, genHumidity, bind, getWorld, normal, ret, result.
  cbn [fst snd app simTime set_rng rng]. rewrite T, A. reflexivity.
Qed.

(** An iteration for the NO2 or the counter quantity does not touch the
    humidity reading. *)
Lemma loopBody_humidity_quiet now i l w :
  sensor_id (sensors (app w) i) = SID_NO2 \/ sensor_id (sensors (app w) i) = SID_COUNTER ->
  humidity (result (loopBody now i l w)) = humidity l /\
  emitted sigHum (output (loopBody now i l w)) = [].
Proof.
  intro H. rewrite loopBody_eq.
  destruct (Qle_bool (nextDue (sensors (app w) i)) now); [|split; reflexivity].
  tuple_simpl. destruct H as [E|E].
  - destruct (sampleSensor_N _ l _ E) as (n & w' & -> & _). split; reflexivity.
  - rewrite (sampleSensor_C _ _ _ E). split; reflexivity.
Qed.

(** A quantity that is not due is left alone by the wake-up. *)
Lemma sampleAndSendIfDue_not_due w i :
  due w i = false ->
  sensors (app (final (sampleAndSendIfDue w))) i = sensors (app w) i.
Proof.
  intro ND. rewrite sampleAndSendIfDue_final.
  set (l0 := mkLocals SB_NONE None None None 0%Z).
  pose (P := fun (done : list SensorID) (l : Locals) (w1 : World) (o : list Event) =>
               sensors (app w1) i = sensors (app w) i).
  apply (forEach_ind (loopBody (simTime w)) P) with (ids := SID_range) (done := [])
                                                    (o := []); [|reflexivity].
  intros done j l w1 o H. unfold P in *.
  destruct (SensorID_eq_dec j i) as [->|NE].
  - rewrite loopBody_not_due; [exact H|]. rewrite H. exact ND.
  - destruct (loopBody_spec (simTime w) j l w1) as (_ & _ & B3 & _).
    rewrite B3 by (intro; apply NE; congruence). exact H.
Qed.


(** Every array element carries its index, from start-up on. *)
Lemma run_ids_ok ids r0 t0 evs : ids_ok (world (run (startup ids r0 t0) evs)).
Proof.
  apply (run_invariant (fun s => ids_ok (world s))).
  - intros s ev IDS.
    destruct (deliver_cases s ev) as [->|[(t & F & ->)|[(t & ->) | ->]]].
    + exact IDS.
    + rewrite after_world.
      destruct (handleMessage_scheduler (timerArrival (world s) t)) as (o & -> & E).
      cbn [fst]. intro i.
      assert (A : app (outcome_world o) =
                  app (final (sampleAndSendIfDue (timerArrival (world s) t)))).
      { destruct E as [->|(n & _ & ->)]; reflexivity. }
      rewrite A. apply sampleAndSendIfDue_ids_ok. exact IDS.
    + exact IDS.
    + intro i. cbn [world]. rewrite finish_sensors. apply IDS.
  - intro i. apply startup_spec.
Qed.

(** The first due time of an enabled quantity lies in the jitter window
    around start-up time plus interval. *)
Lemma startup_nextDue_window ids r0 t0 i :
  (forall k, 0 <= doubleRand k <= 1) ->
  0 < par_interval i ->
  0 <= par_intervalJitterFraction ->
  let x := nextDue (sensors (app (world (startup ids r0 t0))) i) in
  t0 + par_interval i * (1 - par_intervalJitterFraction) <= x
  <= t0 + par_interval i * (1 + par_intervalJitterFraction).
Proof.
  intros Hr HI Hjf. cbv zeta.
  destruct (startup_spec ids r0 t0) as (_ & _ & _ & _ & _ & S).
  destruct (S i) as (_ & _ & _ & _ & N). destruct (N HI) as (k & ->).
  apply jitter_window; [exact HI | exact Hjf | apply Hr].
Qed.

(** * The properties of the specification *)

(** C6.  A wake-up at which no quantity is due is silent: nothing is emitted
    on any signal, no packet is sent, and the module (every quantity's
    state, the random cursor) is exactly as before. *)
Theorem C6_nothing_due_is_silent (w : World) :
  (forall i, due w i = false) ->
  sampleAndSendIfDue w = (tt, w, []).
Proof.
  intro H. rewrite sampleAndSendIfDue_eq.
  assert (E : forEach SID_range (loopBody (simTime w))
                      (mkLocals SB_NONE None None None 0%Z) w =
              (mkLocals SB_NONE None None None 0%Z, w, [])).
  { unfold SID_range. cbn [forEach]. unfold bind.
    rewrite !loopBody_not_due by apply H. reflexivity. }
  rewrite E. unfold result. cbn [fst snd bitmap]. rewrite Z.eqb_refl. reflexivity.
Qed.


(** C2.  Whenever the temperature quantity is due at a wake-up, one packet is
    sent and its bitmap has both the temperature and the humidity bit set,
    whatever the state of the humidity quantity's own timer. *)
Theorem C2_temperature_brings_humidity (w : World) :
  SensorBits_ok ->
  sensor_id (sensors (app w) SID_TEMPERATURE) = SID_TEMPERATURE ->
  due w SID_TEMPERATURE = true ->
  exists pkt,
    sent (output (sampleAndSendIfDue w)) = [pkt] /\
    bit_set (getBitmap (payload pkt)) SB_TEMPERATURE = true /\
    bit_set (getBitmap (payload pkt)) SB_HUMIDITY = true.
Proof.
  intros (NONE & (T0 & _ & H0 & _) & _) Hid Hdue.
  rewrite sampleAndSendIfDue_sent.
  set (l0 := mkLocals SB_NONE None None None 0%Z).
  assert (B : bit_set (bitmap (result (forEach SID_range (loopBody (simTime w)) l0 w)))
                      SB_TEMPERATURE = true /\
              bit_set (bitmap (result (forEach SID_range (loopBody (simTime w)) l0 w)))
                      SB_HUMIDITY = true).
  { unfold SID_range. rewrite forEach_cons. unfold result at 1 3. cbn [fst].
    set (r1 := loopBody (simTime w) SID_TEMPERATURE l0 w).
    destruct (loop_spec (simTime w) [SID_NO2; SID_HUMIDITY; SID_COUNTER]
                        (result r1) (final r1)) as (_ & _ & _ & _ & _ & Mono).
    assert (E : bitmap (result r1) =
                Z.lor (Z.lor SB_NONE SB_TEMPERATURE) SB_HUMIDITY).
    { unfold r1. rewrite loopBody_eq. unfold due in Hdue. rewrite Hdue.
      rewrite (sampleSensor_T _ _ _ Hid). reflexivity. }
    split; apply Mono; rewrite E.
    - apply bit_set_lor_l, bit_set_lor_r. exact T0.
    - apply bit_set_lor_r. exact H0. }
  destruct B as (BT & BH).
  destruct (_ =? _)%Z eqn:E.
  - apply Z.eqb_eq in E. rewrite NONE in E.
    exfalso. exact (bit_set_nonzero _ _ BT E).
  - eexists. split; [reflexivity|].
    rewrite attachLoRaTag_payload. cbn [payload getBitmap]. split; assumption.
Qed.

(** C1 (as the code has it).  At start-up the module overwrites the five
    transmission parameters of the radio it located with the configured
    initial values; from then on no callback of the module (timer, other
    message, finish) changes the radio. *)
Theorem C1_radio_written_at_startup_only
        (ids : SensorID -> SensorID) (r0 : option LoRaRadio) (t0 : Q) :
  radio (world (startup ids r0 t0)) =
    match r0 with
    | Some _ => Some (mkLoRaRadio par_initialLoRaTP par_initialLoRaCF
                                  (int_wrap par_initialLoRaSF) par_initialLoRaBW
                                  (int_wrap par_initialLoRaCR))
    | None => None
    end /\
  (forall s evs, radio (world (run s evs)) = radio (world s)).
Proof.
  split.
  - apply startup_spec.
  - intros s evs.
    apply (run_invariant (fun s' => radio (world s') = radio (world s))); [|reflexivity].
    clear evs. intros s1 ev H.
    destruct (deliver_cases s1 ev) as [->|[(t & F & ->)|[(t & ->) | ->]]].
    + exact H.
    + rewrite after_world.
      destruct (handleMessage_scheduler (timerArrival (world s1) t))
        as (o & -> & [E|(n & _ & E)]); cbn [fst]; rewrite E;
        destruct (sampleAndSendIfDue_static (timerArrival (world s1) t))
          as (_ & R & _); cbn [radio set_fes]; rewrite R; exact H.
    + exact H.
    + cbn [world]. rewrite finish_radio. exact H.
Qed.

(** C8.  A node that found no radio at start-up never holds a radio pointer;
    tagging a packet leaves it as it is; every packet it has sent is
    untagged; and whenever a quantity is due at a timer arrival, the packet
    is sent all the same, untagged. *)
Theorem C8_no_radio_no_tag (ids : SensorID -> SensorID) (t0 : Q) (evs : list HostEvent) :
  SensorBits_ok ->
  let s := run (startup ids None t0) evs in
  loRaRadio (app (world s)) = false /\
  (forall pkt, attachLoRaTag pkt (world s) = (pkt, world s, [])) /\
  (forall pkt, In pkt (sent (trace s)) -> loRaTag pkt = None) /\
  (forall t i,
      due (timerArrival (world s) t) i = true ->
      exists pkt,
        sent (output (sampleAndSendIfDue (timerArrival (world s) t))) = [pkt] /\
        loRaTag pkt = None).
Proof.
  intro OK. cbv zeta.
  assert (sends : forall w pkt,
             loRaRadio (app w) = false ->
             In pkt (sent (output (sampleAndSendIfDue w))) -> loRaTag pkt = None).
  { intros w pkt L I. rewrite sampleAndSendIfDue_sent in I.
    destruct (_ =? _)%Z; [contradiction|]. destruct I as [<-|[]].
    rewrite attachLoRaTag_null; [reflexivity|].
    rewrite (static_loRaRadio w); [exact L | apply loop_spec]. }
  assert (INV : loRaRadio (app (world (run (startup ids None t0) evs))) = false /\
                forall pkt, In pkt (sent (trace (run (startup ids None t0) evs))) ->
                            loRaTag pkt = None).
  { apply (run_invariant
             (fun s => loRaRadio (app (world s)) = false /\
                       forall pkt, In pkt (sent (trace s)) -> loRaTag pkt = None)).
    - intros s ev (L & T).
      destruct (deliver_cases s ev) as [->|[(t & F & ->)|[(t & ->) | ->]]].
      + split; assumption.
      + rewrite after_world, after_trace.
        destruct (handleMessage_scheduler (timerArrival (world s) t))
          as (o & -> & E); cbn [fst snd].
        split.
        * destruct E as [E|(n & _ & E)]; rewrite E; cbn [app set_fes];
            rewrite (static_loRaRadio _ _ (sampleAndSendIfDue_static _)); exact L.
        * intros pkt I. rewrite sent_app in I. apply in_app_or in I.
          destruct I as [I|I]; [apply T; exact I|].
          apply (sends (timerArrival (world s) t) pkt L I).
      + cbn [world trace]. rewrite app_nil_r. split; assumption.
      + cbn [world trace]. rewrite finish_loRaRadio. split; assumption.
    - destruct (startup_spec ids None t0) as (Tr & _ & L & _).
      split; [exact L|]. rewrite Tr. intros pkt []. }
  destruct INV as (L & T).
  splits.
  - exact L.
  - intro pkt. apply attachLoRaTag_null. exact L.
  - exact T.
  - intros t i D.
    pose proof (loop_due_nonzero _ i OK D) as NZ.
    pose proof (sends (timerArrival (world (run (startup ids None t0) evs)) t)) as S.
    rewrite sampleAndSendIfDue_sent in *.
    apply Z.eqb_neq in NZ. rewrite NZ in *.
    eexists. split; [reflexivity|]. apply S; [exact L | left; reflexivity].
Qed.



(** C5 (as the code has it).  A quantity configured with an interval that is
    not positive has [nextDue = SIMTIME_MAX] at start-up and after every
    delivery of the run.  If it is the temperature, NO2 or counter quantity,
    its presence bit is clear in every packet sent; if it is the humidity
    quantity, its presence bit is set only in the packets that also carry the
    temperature bit (the humidity reading taken along with a temperature
    firing). *)
Theorem C5_disabled_quantity
        (ids : SensorID -> SensorID) (r0 : option LoRaRadio) (t0 : Q)
        (evs : list HostEvent) (i : SensorID) :
  SensorBits_ok ->
  par_interval i <= 0 ->
  let s := run (startup ids r0 t0) evs in
  nextDue (sensors (app (world s)) i) = SIMTIME_MAX /\
  (forall pkt, In pkt (sent (trace s)) ->
     (i <> SID_HUMIDITY -> bit_set (getBitmap (payload pkt)) (SB_of i) = false) /\
     (i = SID_HUMIDITY ->
      bit_set (getBitmap (payload pkt)) SB_HUMIDITY = true ->
      bit_set (getBitmap (payload pkt)) SB_TEMPERATURE = true)).
Proof.
  intros OK Dis. cbv zeta.
  pose (Inv := fun s : Sim =>
                 ids_ok (world s) /\
                 (forall j, interval (sensors (app (world s)) j) = par_interval j) /\
                 (forall j, par_interval j <= 0 ->
                            nextDue (sensors (app (world s)) j) = SIMTIME_MAX) /\
                 (forall t, fes (world s) = Some t -> t < SIMTIME_MAX) /\
                 (forall pkt, In pkt (sent (trace s)) ->
                              respects_disabled (fun j => par_interval j <= 0)
                                                (getBitmap (payload pkt)))).
  assert (H : Inv (run (startup ids r0 t0) evs)).
  { apply run_invariant.
    - intros s ev (IDS & IV & DIS & FES & PK).
      destruct (deliver_cases s ev) as [->|[(t & F & ->)|[(t & ->) | ->]]].
      + unfold Inv; splits; assumption.
      + unfold Inv. rewrite after_world, after_trace.
        set (w1 := timerArrival (world s) t).
        destruct (handleMessage_scheduler w1) as (o & -> & E); cbn [fst snd].
        assert (IDS1 : ids_ok w1) by exact IDS.
        assert (IV1 : forall j, interval (sensors (app w1) j) = par_interval j) by exact IV.
        destruct (sampleAndSendIfDue_disabled w1 OK IDS1) as (D2 & P2).
        { intros j Hj. rewrite IV1 in Hj. apply DIS. exact Hj. }
        { apply FES. exact F. }
        pose proof (sampleAndSendIfDue_ids_ok _ IDS1) as IDS2.
        pose proof (sampleAndSendIfDue_static w1) as (_ & _ & F2 & _).
        destruct (loop_spec (simTime w1) SID_range (mkLocals SB_NONE None None None 0%Z) w1)
          as (_ & _ & _ & S4 & _).
        rewrite <- sampleAndSendIfDue_final in S4.
        assert (A : app (outcome_world o) = app (final (sampleAndSendIfDue w1))).
        { destruct E as [->|(n & _ & ->)]; reflexivity. }
        split; [intro j; rewrite A; apply IDS2|].
        split; [intro j; rewrite A; destruct (S4 j) as (_ & -> & _); apply IV1|].
        split; [intros j Hj; rewrite A; apply D2; rewrite IV1; exact Hj|].
        split.
        * intros t' Ht'. destruct E as [E|(n & Ln & E)]; rewrite E in Ht'.
          -- rewrite F2 in Ht'. discriminate.
          -- injection Ht' as <-. apply Qlt_bool_iff. exact Ln.
        * intros pkt I. rewrite sent_app in I. apply in_app_or in I.
          destruct I as [I|I]; [apply PK; exact I|].
          intros j Hj. apply (P2 pkt I j). rewrite IV1. exact Hj.
      + unfold Inv. cbn [world trace]. rewrite app_nil_r. splits; assumption.
      + unfold Inv. cbn [world trace].
        split; [intro j; rewrite finish_sensors; apply IDS|].
        split; [intro j; rewrite finish_sensors; apply IV|].
        split; [intros j Hj; rewrite finish_sensors; apply DIS; exact Hj|].
        split; [|exact PK].
        intros t Ht. unfold finish in Ht.
        destruct (scheduler (app (world s))); [discriminate | apply FES; exact Ht].
    - destruct (startup_spec ids r0 t0) as (Tr & _ & _ & _ & Fs & S).
      split; [intro j; apply S|]. split; [intro j; apply S|].
      split; [intros j Hj; apply S; exact Hj|]. split; [exact Fs|].
      rewrite Tr. intros pkt []. }
  destruct H as (_ & _ & H3 & _ & H5). split.
  - apply H3. exact Dis.
  - intros pkt I. exact (H5 pkt I i Dis).
Qed.

(** C10.  At a wake-up where both the temperature and the humidity quantity
    are due, [genHumidity] runs twice, on two different random draws: once
    in the temperature case and once, later in the loop, in the humidity
    case.  Both readings are emitted on the humidity signal, in that order,
    and the one packet sent carries the second. *)
Theorem C10_humidity_sampled_twice (w : World) :
  SensorBits_ok ->
  ids_ok w ->
  due w SID_TEMPERATURE = true ->
  due w SID_HUMIDITY = true ->
  exists (k : nat) (pkt : Packet),
    (rng w + 2 <= k)%nat /\
    emitted sigHum (output (sampleAndSendIfDue w)) =
      [DoubleV (humidityAt w (S (rng w))); DoubleV (humidityAt w k)] /\
    sent (output (sampleAndSendIfDue w)) = [pkt] /\
    getHumidity (payload pkt) = Some (humidityAt w k).
Proof.
  intros OK IDS DT DH.
  set (l0 := mkLocals SB_NONE None None None 0%Z). set (now := simTime w).
  pose proof (loop_due_nonzero w SID_TEMPERATURE OK DT) as NZ.
  pose proof (loop_unrolled now l0 w) as U. cbv zeta in U.
  set (r1 := loopBody now SID_TEMPERATURE l0 w) in U.
  set (r2 := loopBody now SID_NO2 (result r1) (final r1)) in U.
  set (r3 := loopBody now SID_HUMIDITY (result r2) (final r2)) in U.
  set (r4 := loopBody now SID_COUNTER (result r3) (final r3)) in U.
  (* the temperature iteration *)
  destruct (loopBody_spec now SID_TEMPERATURE l0 w) as (S1 & _ & F1 & I1 & _).
  fold r1 in S1, F1, I1.
  assert (E1 : humidity (result r1) = Some (humidityAt w (S (rng w))) /\
               emitted sigHum (output r1) = [DoubleV (humidityAt w (S (rng w)))] /\
               (rng w + 2 <= rng (final r1))%nat).
  { unfold r1. rewrite loopBody_eq. unfold due in DT. fold now in DT. rewrite DT.
    tuple_simpl. rewrite (sampleSensor_T _ _ _ (IDS SID_TEMPERATURE)). tuple_simpl.
    splits; try reflexivity.
    destruct (recomputeNextDue_spec now SID_TEMPERATURE (set_rng (S (S (rng w))) w))
      as (_ & R & _).
    cbn [rng set_rng] in R. lia. }
  destruct E1 as (Hum1 & Out1 & Rng1).
  (* the NO2 iteration *)
  destruct (loopBody_spec now SID_NO2 (result r1) (final r1)) as (S2 & Rng2 & F2 & I2 & _).
  fold r2 in S2, Rng2, F2, I2.
  destruct (loopBody_humidity_quiet now SID_NO2 (result r1) (final r1)) as (Hum2 & Out2).
  { left. destruct (I1 SID_NO2) as (-> & _). apply IDS. }
  fold r2 in Hum2, Out2.
  (* the humidity iteration *)
  assert (SameH : sensors (app (final r2)) SID_HUMIDITY = sensors (app w) SID_HUMIDITY).
  { rewrite F2, F1 by discriminate. reflexivity. }
  destruct (loopBody_spec now SID_HUMIDITY (result r2) (final r2)) as (_ & _ & _ & I3 & _).
  fold r3 in I3.
  assert (E3 : humidity (result r3) = Some (humidityAt w (rng (final r2))) /\
               emitted sigHum (output r3) = [DoubleV (humidityAt w (rng (final r2)))]).
  { unfold r3. rewrite loopBody_eq, SameH. unfold due in DH. fold now in DH. rewrite DH.
    tuple_simpl.
    rewrite sampleSensor_H by (rewrite SameH; apply IDS). tuple_simpl.
    rewrite (humidityAt_static w (final r2)) by (eapply static_trans; eassumption).
    split; reflexivity. }
  destruct E3 as (Hum3 & Out3).
  (* the counter iteration *)
  destruct (loopBody_humidity_quiet now SID_COUNTER (result r3) (final r3)) as (Hum4 & Out4).
  { right. destruct (I3 SID_COUNTER) as (-> & _). destruct (I2 SID_COUNTER) as (-> & _).
    destruct (I1 SID_COUNTER) as (-> & _). apply IDS. }
  fold r4 in Hum4, Out4.
  (* the packet *)
  exists (rng (final r2)).
  rewrite sampleAndSendIfDue_sent, sampleAndSendIfDue_eq. fold l0 now.
  apply Z.eqb_neq in NZ. fold l0 now in NZ. rewrite NZ.
  eexists. split; [lia|]. split; [|split; [reflexivity|]].
  - tuple_simpl. rewrite U. tuple_simpl.
    rewrite !emitted_app, Out1, Out2, Out3, Out4. reflexivity.
  - rewrite attachLoRaTag_payload. cbn [payload getHumidity].
    rewrite U. tuple_simpl. rewrite Hum4, Hum3. reflexivity.
Qed.

(** C9.  The path loss is the free-space loss of the base class plus a
    vegetation term: 0.45 * f_GHz^0.284 * d for a foliage depth d with
    0 < d <= 14, 1.33 * f_GHz^0.284 * d^0.588 for d > 14, and zero for
    d <= 0; this for every distance and frequency. *)
Theorem C9_vegetation_loss {E : WeissbergerPathLoss.Env} (distance frequency : Q) :
  let d := WeissbergerPathLoss.par_vegetationDepth in
  let fspl := WeissbergerPathLoss.FreeSpacePathLoss_computePathLoss distance frequency in
  let fGHz := frequency / 1e9 in
  (0 < d -> d <= 14 ->
   WeissbergerPathLoss.computePathLoss distance frequency ==
     fspl + 0.45 * WeissbergerPathLoss.pow fGHz 0.284 * d) /\
  (14 < d ->
   WeissbergerPathLoss.computePathLoss distance frequency ==
     fspl + 1.33 * WeissbergerPathLoss.pow fGHz 0.284 * WeissbergerPathLoss.pow d 0.588) /\
  (d <= 0 ->
   WeissbergerPathLoss.computePathLoss distance frequency == fspl).
Proof.
  cbv zeta. unfold WeissbergerPathLoss.computePathLoss. splits.
  - intros H0 H14. apply Qlt_bool_iff in H0.
    assert (L : Qle_bool WeissbergerPathLoss.par_vegetationDepth 14.0 = true)
      by (apply Qle_bool_iff; lra).
    rewrite H0, L. reflexivity.
  - intro H14. assert (H0 : 0 < WeissbergerPathLoss.par_vegetationDepth) by lra.
    apply Qlt_bool_iff in H0.
    assert (L : Qle_bool WeissbergerPathLoss.par_vegetationDepth 14.0 = false)
      by (apply Qle_bool_false_iff; lra).
    rewrite H0, L. reflexivity.
  - intro H0. apply Qlt_bool_false_iff in H0. rewrite H0. lra.
Qed.

(** * Further properties of the code *)

(** ** Helper lemmas *)

Lemma earliestNextDue_min (a : App) :
  (forall i, earliestNextDue a <= nextDue (sensors a i)) /\
  earliestNextDue a <= SIMTIME_MAX /\
  (earliestNextDue a = SIMTIME_MAX \/
   exists i, earliestNextDue a = nextDue (sensors a i)).
Proof.
  unfold earliestNextDue, SID_range. cbn [fold_left].
  destruct (Qlt_bool (nextDue (sensors a SID_TEMPERATURE)) SIMTIME_MAX) eqn:E1;
    [apply Qlt_bool_iff in E1 | apply Qlt_bool_false_iff in E1];
    match goal with
    | |- context [Qlt_bool (nextDue (sensors _ SID_NO2)) ?e] =>
        destruct (Qlt_bool (nextDue (sensors a SID_NO2)) e) eqn:E2;
        [apply Qlt_bool_iff in E2 | apply Qlt_bool_false_iff in E2]
    end;
    match goal with
    | |- context [Qlt_bool (nextDue (sensors _ SID_HUMIDITY)) ?e] =>
        destruct (Qlt_bool (nextDue (sensors a SID_HUMIDITY)) e) eqn:E3;
        [apply Qlt_bool_iff in E3 | apply Qlt_bool_false_iff in E3]
    end;
    match goal with
    | |- context [Qlt_bool (nextDue (sensors _ SID_COUNTER)) ?e] =>
        destruct (Qlt_bool (nextDue (sensors a SID_COUNTER)) e) eqn:E4;
        [apply Qlt_bool_iff in E4 | apply Qlt_bool_false_iff in E4]
    end;
    (split; [intro i; destruct i; lra|]; split; [lra|]);
    first [ left; reflexivity
          | right; exists SID_COUNTER; reflexivity
          | right; exists SID_HUMIDITY; reflexivity
          | right; exists SID_NO2; reflexivity
          | right; exists SID_TEMPERATURE; reflexivity ].
Qed.

Lemma scheduleNext_cases w :
  let e := earliestNextDue (app w) in
  (Qlt_bool e SIMTIME_MAX = false /\ scheduleNext w = Some w) \/
  (Qlt_bool e SIMTIME_MAX = true /\ Qlt_bool e (simTime w) = true /\
   scheduleNext w = None) \/
  (Qlt_bool e SIMTIME_MAX = true /\ Qlt_bool e (simTime w) = false /\
   scheduleNext w = Some (set_fes (Some e) w)).
Proof.
  cbv zeta. unfold scheduleNext, scheduleAt.
  destruct (Qlt_bool (earliestNextDue (app w)) SIMTIME_MAX); [|left; split; reflexivity].
  destruct (Qlt_bool (earliestNextDue (app w)) (simTime w));
    right; [left | right]; splits; reflexivity.
Qed.

Lemma handleMessage_scheduler_eq w :
  handleMessage SchedulerMsg w =
    (match scheduleNext (final (sampleAndSendIfDue w)) with
     | Some w2 => Returned w2
     | None => Thrown (final (sampleAndSendIfDue w))
     end, output (sampleAndSendIfDue w)).
Proof.
  unfold handleMessage. destruct (sampleAndSendIfDue w) as [[u w1] o1]. tuple_simpl.
  destruct (scheduleNext w1); reflexivity.
Qed.

Lemma initialize_app_eq w :
  initialize INITSTAGE_APPLICATION_LAYER w =
    (match scheduleNext (final (applyInitialLoRaParams w)) with
     | Some w2 => Returned w2
     | None => Thrown (final (applyInitialLoRaParams w))
     end, []).
Proof.
  unfold initialize. destruct (applyInitialLoRaParams_spec w) as (O & _).
  destruct (applyInitialLoRaParams w) as [[u w1] o1]. tuple_simpl.
  rewrite output_tuple in O. subst o1. destruct (scheduleNext w1); reflexivity.
Qed.

Lemma startup_eq ids r0 t0 :
  exists w1,
    initialize INITSTAGE_LOCAL (mkWorld (App_default ids) t0 0%nat r0 None)
    = (Returned w1, []) /\
    startup ids r0 t0 =
      after (mkSim w1 [] true) (initialize INITSTAGE_APPLICATION_LAYER w1).
Proof.
  destruct (initialize_local_spec (mkWorld (App_default ids) t0 0%nat r0 None))
    as (w1 & E & _).
  exists w1. split; [exact E|]. unfold startup. cbn [world]. rewrite E. reflexivity.
Qed.

Lemma earliestNextDue_attained (a : App) :
  earliestNextDue a < SIMTIME_MAX ->
  exists i, earliestNextDue a = nextDue (sensors a i).
Proof.
  intro L. destruct (earliestNextDue_min a) as (_ & _ & [E|E]); [|exact E].
  rewrite E in L. exfalso. exact (Qlt_irrefl _ L).
Qed.

Lemma scheduleNext_armed w w' :
  fes w = None -> scheduleNext w = Some w' -> armed_ok w'.
Proof.
  intros F E. destruct (scheduleNext_cases w) as [(_ & S)|[(_ & _ & S)|(L & P & S)]];
    rewrite S in E; [| discriminate |]; injection E as <-; intros t Ht.
  - rewrite F in Ht. discriminate.
  - cbn [fes set_fes] in Ht. injection Ht as <-. cbn [app set_fes simTime].
    splits; [reflexivity | apply Qlt_bool_iff; exact L | apply Qlt_bool_false_iff; exact P].
Qed.

Lemma run_armed ids r0 t0 evs : armed_ok (world (run (startup ids r0 t0) evs)).
Proof.
  apply (run_invariant (fun s => armed_ok (world s))).
  - intros s ev A. unfold deliver.
    destruct (negb (running s)); [exact A|].
    destruct ev as [|t b|].
    + destruct (fes (world s)) as [t|] eqn:F; [|exact A].
      rewrite after_world, handleMessage_scheduler_eq. cbn [fst].
      set (w1 := final (sampleAndSendIfDue (timerArrival (world s) t))).
      assert (F1 : fes w1 = None).
      { destruct (sampleAndSendIfDue_static (timerArrival (world s) t)) as (_ & _ & F1 & _).
        exact F1. }
      destruct (scheduleNext w1) as [w2|] eqn:E; cbn [outcome_world].
      * exact (scheduleNext_armed w1 w2 F1 E).
      * intros t' Ht'. rewrite F1 in Ht'. discriminate.
    + destruct (Qle_bool (simTime (world s)) t) eqn:L1; cbn [andb]; [|exact A].
      destruct (fes (world s)) as [t'|] eqn:F.
      * destruct (Qle_bool t t') eqn:L2; [|exact A].
        rewrite after_world. destruct b; cbn [handleMessage fst outcome_world];
          intros t2 Ht2; cbn [fes set_simTime] in Ht2; rewrite F in Ht2;
          injection Ht2 as <-; destruct (A t' F) as (A1 & A2 & _);
          cbn [app set_simTime simTime]; (splits; [exact A1 | exact A2 |]);
          apply Qle_bool_iff; exact L2.
      * rewrite after_world. destruct b; cbn [handleMessage fst outcome_world];
          intros t2 Ht2; cbn [fes set_simTime] in Ht2; rewrite F in Ht2; discriminate.
    + cbn [world]. intros t Ht. unfold finish in *.
      destruct (scheduler (app (world s))); [discriminate | apply A; exact Ht].
  - destruct (startup_eq ids r0 t0) as (w1 & E & ->).
    destruct (initialize_local_spec (mkWorld (App_default ids) t0 0%nat r0 None))
      as (w1' & E' & _ & _ & F & _).
    rewrite E in E'. injection E' as <-. cbn [fes] in F.
    rewrite after_world, initialize_app_eq. cbn [fst].
    destruct (applyInitialLoRaParams_spec w1) as (_ & _ & _ & F2 & _).
    rewrite F in F2.
    destruct (scheduleNext (final (applyInitialLoRaParams w1))) as [w2|] eqn:S;
      cbn [outcome_world].
    + exact (scheduleNext_armed _ _ F2 S).
    + intros t Ht. rewrite F2 in Ht. discriminate.
Qed.

(** ** The loop, iteration by iteration *)

Lemma temperatureAt_static w w' k : static w w' -> temperatureAt w' k = temperatureAt w k.
Proof.
  intros (T & _ & _ & A).
  unfold temperatureAt, genTemperature, bind, getWorld, normal, ret, result.
  cbn [fst snd app simTime set_rng rng]. rewrite T, A. reflexivity.
Qed.

Lemma no2At_static w w' k : static w w' -> no2At w' k = no2At w k.
Proof.
  intros (T & _ & _ & A).
  unfold no2At, genNO2, bind, getWorld, normal, ret, result.
  cbn [fst snd app simTime set_rng rng]. rewrite T, A. reflexivity.
Qed.

Lemma sampleSensor_N_eq i l w :
  sensor_id (sensors (app w) i) = SID_NO2 ->
  sampleSensor i l w =
    (mkLocals (Z.lor (bitmap l) SB_NO2) (temperature l) (humidity l)
              (Some (no2At w (rng w))) (counterVal l),
     set_app (set_sensors (upd i (set_lastValue (Some (no2At w (rng w)))
                                                (sensors (app w) i))
                               (sensors (app w))) (app w))
             (set_rng (S (rng w)) w),
     [Emit sigNO2 (DoubleV (no2At w (rng w)))]).
Proof.
  intro H. unfold sampleSensor. unfold bind at 1. unfold getWorld at 1.
  cbv beta iota. rewrite H. destruct w as [a t n r f]. reflexivity.
Qed.

Lemma recomputeNextDue_rng now i w :
  rng (final (recomputeNextDue now i w)) =
    (rng w + (if Qlt_bool 0 (interval (sensors (app w) i)) then 1 else 0))%nat.
Proof.
  rewrite recomputeNextDue_eq. tuple_simpl.
  destruct (Qlt_bool 0 (interval (sensors (app w) i))); cbn [rng set_app set_rng]; lia.
Qed.

(** The iteration of quantity [j], run in a world [w1] that the earlier
    iterations made of [w] without touching [sensors[j]]. *)
Lemma loopBody_exact w w1 l j :
  static w w1 ->
  sensors (app w1) j = sensors (app w) j ->
  sensor_id (sensors (app w) j) = j ->
  let r := loopBody (simTime w) j l w1 in
  rng (final r) = (rng w1 + drawsOf w j)%nat /\
  result r =
    (if due w j then
       match j with
       | SID_TEMPERATURE =>
           mkLocals (Z.lor (Z.lor (bitmap l) SB_TEMPERATURE) SB_HUMIDITY)
                    (Some (temperatureAt w (rng w1))) (Some (humidityAt w (S (rng w1))))
                    (no2 l) (counterVal l)
       | SID_NO2 =>
           mkLocals (Z.lor (bitmap l) SB_NO2) (temperature l) (humidity l)
                    (Some (no2At w (rng w1))) (counterVal l)
       | SID_HUMIDITY =>
           mkLocals (Z.lor (bitmap l) SB_HUMIDITY) (temperature l)
                    (Some (humidityAt w (rng w1))) (no2 l) (counterVal l)
       | SID_COUNTER =>
           mkLocals (Z.lor (bitmap l) SB_COUNTER) (temperature l) (humidity l) (no2 l)
                    (int_wrap (counter (sensors (app w) j) + 1))
       end
     else l) /\
  output r =
    (if due w j then
       match j with
       | SID_TEMPERATURE =>
           [Emit sigTemp (DoubleV (temperatureAt w (rng w1)));
            Emit sigHum (DoubleV (humidityAt w (S (rng w1))))]
       | SID_NO2 => [Emit sigNO2 (DoubleV (no2At w (rng w1)))]
       | SID_HUMIDITY => [Emit sigHum (DoubleV (humidityAt w (rng w1)))]
       | SID_COUNTER =>
           [Emit sigCounter (LongV (int_wrap (counter (sensors (app w) j) + 1)))]
       end
     else []).
Proof.
  intros St Same Id. cbv zeta. rewrite loopBody_eq, Same. unfold drawsOf, due.
  destruct (Qle_bool (nextDue (sensors (app w) j)) (simTime w)); tuple_simpl;
    [|splits; [lia | reflexivity | reflexivity]].
  rewrite recomputeNextDue_rng.
  destruct (sampleSensor_spec j l w1) as (_ & _ & _ & S4 & _).
  destruct (S4 j) as (_ & -> & _). rewrite Same.
  assert (Id1 : sensor_id (sensors (app w1) j) = j) by (rewrite Same; exact Id).
  rewrite <- (temperatureAt_static w w1) by exact St.
  rewrite <- !(humidityAt_static w w1) by exact St.
  rewrite <- (no2At_static w w1) by exact St.
  destruct j.
  - rewrite (sampleSensor_T _ _ _ Id1). tuple_simpl. cbn [rng set_rng].
    splits; [lia | reflexivity | reflexivity].
  - rewrite (sampleSensor_N_eq _ _ _ Id1). tuple_simpl. cbn [rng set_app set_rng].
    splits; [lia | reflexivity | reflexivity].
  - rewrite (sampleSensor_H _ _ _ Id1). tuple_simpl. cbn [rng set_app set_rng].
    splits; [lia | reflexivity | reflexivity].
  - rewrite (sampleSensor_C _ _ _ Id1). tuple_simpl. cbn [rng set_app set_rng].
    rewrite Same. splits; [lia | reflexivity | reflexivity].
Qed.

(** The loop of a wake-up, in closed form. *)
Lemma loop_exact w :
  ids_ok w ->
  let r := forEach SID_range (loopBody (simTime w))
                   (mkLocals SB_NONE None None None 0%Z) w in
  result r = loopLocals w /\ output r = loopReadings w.
Proof.
  intros IDS. cbv zeta. rewrite loop_unrolled. cbv zeta. tuple_simpl.
  set (l0 := mkLocals SB_NONE None None None 0%Z). set (now := simTime w).
  set (r1 := loopBody now SID_TEMPERATURE l0 w).
  set (r2 := loopBody now SID_NO2 (result r1) (final r1)).
  set (r3 := loopBody now SID_HUMIDITY (result r2) (final r2)).
  set (r4 := loopBody now SID_COUNTER (result r3) (final r3)).
  destruct (loopBody_spec now SID_TEMPERATURE l0 w) as (S1 & _ & F1 & _).
  fold r1 in S1, F1.
  destruct (loopBody_spec now SID_NO2 (result r1) (final r1)) as (S2 & _ & F2 & _).
  fold r2 in S2, F2.
  destruct (loopBody_spec now SID_HUMIDITY (result r2) (final r2)) as (S3 & _ & F3 & _).
  fold r3 in S3, F3.
  pose proof (static_trans _ _ _ S1 S2) as S12.
  pose proof (static_trans _ _ _ S12 S3) as S123.
  destruct (loopBody_exact w w l0 SID_TEMPERATURE (static_refl w) eq_refl (IDS _))
    as (K1 & L1 & O1).
  fold now r1 in K1, L1, O1.
  destruct (loopBody_exact w (final r1) (result r1) SID_NO2 S1) as (K2 & L2 & O2);
    [apply F1; discriminate | apply IDS |].
  fold now r2 in K2, L2, O2.
  destruct (loopBody_exact w (final r2) (result r2) SID_HUMIDITY S12) as (K3 & L3 & O3);
    [rewrite F2, F1 by discriminate; reflexivity | apply IDS |].
  fold now r3 in K3, L3, O3.
  destruct (loopBody_exact w (final r3) (result r3) SID_COUNTER S123) as (K4 & L4 & O4);
    [rewrite F3, F2, F1 by discriminate; reflexivity | apply IDS |].
  fold now r4 in K4, L4, O4.
  unfold loopLocals, loopReadings. cbv zeta. fold l0.
  rewrite L4, L3, L2, L1, O4, O3, O2, O1, K2, K1. split; reflexivity.
Qed.

Lemma attachLoRaTag_static pkt w w' :
  static w w' -> result (attachLoRaTag pkt w') = result (attachLoRaTag pkt w).
Proof.
  intros St. pose proof (static_loRaRadio _ _ St) as L. destruct St as (_ & R & _).
  unfold attachLoRaTag. rewrite L, R. destruct (negb (loRaRadio (app w))); [reflexivity|].
  destruct (radio w); reflexivity.
Qed.

(** The output of a wake-up, in closed form. *)
Lemma sampleAndSendIfDue_exact w :
  ids_ok w ->
  output (sampleAndSendIfDue w) =
    loopReadings w ++
    (if (bitmap (loopLocals w) =? SB_NONE)%Z then []
     else [Send (result (attachLoRaTag (packetOf w (loopLocals w)) w)) "socketOut";
           Emit sigPktSent (LongV (bitmap (loopLocals w)))]).
Proof.
  intro IDS. rewrite sampleAndSendIfDue_eq.
  destruct (loop_exact w IDS) as (L & O).
  destruct (loop_spec (simTime w) SID_range (mkLocals SB_NONE None None None 0%Z) w)
    as (St & _).
  rewrite L. destruct (_ =? _)%Z; tuple_simpl; rewrite O; [rewrite app_nil_r; reflexivity|].
  rewrite (attachLoRaTag_static _ w _ St), (static_basePayloadBytes _ _ St).
  reflexivity.
Qed.

Lemma sampleAndSendIfDue_nothing_due w :
  (forall i, due w i = false) -> sampleAndSendIfDue w = (tt, w, []).
Proof.
  intro H. rewrite sampleAndSendIfDue_eq.
  assert (E : forEach SID_range (loopBody (simTime w))
                      (mkLocals SB_NONE None None None 0%Z) w =
              (mkLocals SB_NONE None None None 0%Z, w, [])).
  { rewrite loop_unrolled. cbv zeta.
    rewrite (loopBody_not_due _ SID_TEMPERATURE) by apply H. tuple_simpl.
    rewrite (loopBody_not_due _ SID_NO2) by apply H. tuple_simpl.
    rewrite (loopBody_not_due _ SID_HUMIDITY) by apply H. tuple_simpl.
    rewrite (loopBody_not_due _ SID_COUNTER) by apply H. tuple_simpl. reflexivity. }
  rewrite E. tuple_simpl. cbn [bitmap]. rewrite Z.eqb_refl. reflexivity.
Qed.

(** The presence bits of the loop's bitmap: one per quantity that fired, the
    humidity bit also for a temperature firing. *)
Lemma loopLocals_bits w :
  SensorBits_ok ->
  bit_set (bitmap (loopLocals w)) SB_TEMPERATURE = due w SID_TEMPERATURE /\
  bit_set (bitmap (loopLocals w)) SB_NO2 = due w SID_NO2 /\
  bit_set (bitmap (loopLocals w)) SB_HUMIDITY
    = (due w SID_TEMPERATURE || due w SID_HUMIDITY)%bool /\
  bit_set (bitmap (loopLocals w)) SB_COUNTER = due w SID_COUNTER.
Proof.
  intros (E0 & (T0 & N0 & H0 & C0) & (TN & TH & TC & NH & NC & HC)).
  pose proof TN as NT; rewrite Z.land_comm in NT.
  pose proof TH as HT; rewrite Z.land_comm in HT.
  pose proof TC as CT; rewrite Z.land_comm in CT.
  pose proof NH as HN; rewrite Z.land_comm in HN.
  pose proof NC as CN; rewrite Z.land_comm in CN.
  pose proof HC as CH; rewrite Z.land_comm in CH.
  unfold loopLocals. cbv zeta.
  destruct (due w SID_TEMPERATURE), (due w SID_NO2), (due w SID_HUMIDITY),
           (due w SID_COUNTER);
    cbn [bitmap orb]; rewrite E0;
    splits;
    repeat first [ rewrite bit_set_lor_r by assumption
                 | rewrite bit_set_lor_disjoint by assumption
                 | rewrite bit_set_0 ];
    reflexivity.
Qed.

(** The retained reading after the iteration of quantity [j]: only the NO2
    and the humidity case store one. *)
Lemma loopBody_exact_lastValue w w1 l j :
  static w w1 ->
  sensors (app w1) j = sensors (app w) j ->
  sensor_id (sensors (app w) j) = j ->
  lastValue (sensors (app (final (loopBody (simTime w) j l w1))) j) =
    (if due w j then
       match j with
       | SID_NO2 => Some (no2At w (rng w1))
       | SID_HUMIDITY => Some (humidityAt w (rng w1))
       | _ => lastValue (sensors (app w) j)
       end
     else lastValue (sensors (app w) j)).
Proof.
  intros St Same Id. rewrite loopBody_eq, Same. unfold due.
  destruct (Qle_bool (nextDue (sensors (app w) j)) (simTime w)); tuple_simpl;
    [|rewrite Same; reflexivity].
  destruct (recomputeNextDue_spec (simTime w) j (final (sampleSensor j l w1)))
    as (_ & _ & _ & R4 & _).
  destruct (R4 j) as (_ & _ & -> & _).
  assert (Id1 : sensor_id (sensors (app w1) j) = j) by (rewrite Same; exact Id).
  rewrite <- (humidityAt_static w w1) by exact St.
  rewrite <- (no2At_static w w1) by exact St.
  destruct j.
  - rewrite (sampleSensor_T _ _ _ Id1). tuple_simpl. cbn [app set_rng]. rewrite Same.
    reflexivity.
  - rewrite (sampleSensor_N_eq _ _ _ Id1). tuple_simpl.
    cbn [app set_app sensors set_sensors]. rewrite upd_same. reflexivity.
  - rewrite (sampleSensor_H _ _ _ Id1). tuple_simpl.
    cbn [app set_app sensors set_sensors]. rewrite upd_same. reflexivity.
  - rewrite (sampleSensor_C _ _ _ Id1). tuple_simpl.
    cbn [app set_app sensors set_sensors]. rewrite upd_same. cbn [lastValue set_counter].
    rewrite Same. reflexivity.
Qed.

(** The module after the loop of a wake-up: the random cursor and the
    retained readings. *)
Lemma loop_exact_state w :
  ids_ok w ->
  let r := forEach SID_range (loopBody (simTime w))
                   (mkLocals SB_NONE None None None 0%Z) w in
  rng (final r) =
    (rng w + drawsOf w SID_TEMPERATURE + drawsOf w SID_NO2
     + drawsOf w SID_HUMIDITY + drawsOf w SID_COUNTER)%nat /\
  (forall j,
      lastValue (sensors (app (final r)) j) =
        (if due w j then
           match j with
           | SID_NO2 => no2 (loopLocals w)
           | SID_HUMIDITY => humidity (loopLocals w)
           | _ => lastValue (sensors (app w) j)
           end
         else lastValue (sensors (app w) j))).
Proof.
  intros IDS. cbv zeta. rewrite loop_unrolled. cbv zeta. tuple_simpl.
  set (l0 := mkLocals SB_NONE None None None 0%Z). set (now := simTime w).
  set (r1 := loopBody now SID_TEMPERATURE l0 w).
  set (r2 := loopBody now SID_NO2 (result r1) (final r1)).
  set (r3 := loopBody now SID_HUMIDITY (result r2) (final r2)).
  set (r4 := loopBody now SID_COUNTER (result r3) (final r3)).
  destruct (loopBody_spec now SID_TEMPERATURE l0 w) as (S1 & _ & F1 & _).
  fold r1 in S1, F1.
  destruct (loopBody_spec now SID_NO2 (result r1) (final r1)) as (S2 & _ & F2 & _).
  fold r2 in S2, F2.
  destruct (loopBody_spec now SID_HUMIDITY (result r2) (final r2)) as (S3 & _ & F3 & _).
  fold r3 in S3, F3.
  destruct (loopBody_spec now SID_COUNTER (result r3) (final r3)) as (_ & _ & F4 & _).
  fold r4 in F4.
  pose proof (static_trans _ _ _ S1 S2) as S12.
  pose proof (static_trans _ _ _ S12 S3) as S123.
  assert (E2 : sensors (app (final r1)) SID_NO2 = sensors (app w) SID_NO2)
    by (apply F1; discriminate).
  assert (E3 : sensors (app (final r2)) SID_HUMIDITY = sensors (app w) SID_HUMIDITY)
    by (rewrite F2, F1 by discriminate; reflexivity).
  assert (E4 : sensors (app (final r3)) SID_COUNTER = sensors (app w) SID_COUNTER)
    by (rewrite F3, F2, F1 by discriminate; reflexivity).
  destruct (loopBody_exact w w l0 SID_TEMPERATURE (static_refl w) eq_refl (IDS _))
    as (K1 & _).
  destruct (loopBody_exact w (final r1) (result r1) SID_NO2 S1 E2 (IDS _)) as (K2 & _).
  destruct (loopBody_exact w (final r2) (result r2) SID_HUMIDITY S12 E3 (IDS _))
    as (K3 & _).
  destruct (loopBody_exact w (final r3) (result r3) SID_COUNTER S123 E4 (IDS _))
    as (K4 & _).
  fold now r1 in K1. fold now r2 in K2. fold now r3 in K3. fold now r4 in K4.
  pose proof (loopBody_exact_lastValue w w l0 SID_TEMPERATURE (static_refl w) eq_refl
                                       (IDS _)) as V1.
  pose proof (loopBody_exact_lastValue w (final r1) (result r1) SID_NO2 S1 E2 (IDS _))
    as V2.
  pose proof (loopBody_exact_lastValue w (final r2) (result r2) SID_HUMIDITY S12 E3
                                       (IDS _)) as V3.
  pose proof (loopBody_exact_lastValue w (final r3) (result r3) SID_COUNTER S123 E4
                                       (IDS _)) as V4.
  fold now r1 in V1. fold now r2 in V2. fold now r3 in V3. fold now r4 in V4.
  split; [lia|].
  intro j. unfold loopLocals. cbv zeta. destruct j.
  - rewrite F4, F3, F2 by discriminate. rewrite V1.
    destruct (due w SID_TEMPERATURE); reflexivity.
  - rewrite F4, F3 by discriminate. rewrite V2, K1.
    destruct (due w SID_NO2), (due w SID_HUMIDITY), (due w SID_COUNTER); reflexivity.
  - rewrite F4 by discriminate. rewrite V3, K2, K1.
    destruct (due w SID_HUMIDITY), (due w SID_COUNTER); reflexivity.
  - rewrite V4. destruct (due w SID_COUNTER); reflexivity.
Qed.

(** ** More on start-up *)

Lemma initSensor_more id interval_ isCounter_ w :
  lastValue (sensors (app (final (initSensor id interval_ isCounter_ w))) id) = None /\
  isCounter (sensors (app (final (initSensor id interval_ isCounter_ w))) id) = isCounter_.
Proof.
  unfold initSensor, bind, modifySensor, getWorld, uniform, final.
  destruct (Qlt_bool 0 interval_);
    cbn [app sensors set_app set_sensors set_rng rng simTime radio fes jitterFrac
         fst snd List.app];
    rewrite ?upd_same; split; reflexivity.
Qed.

(** After stage 0 no quantity retains a reading, only the counter quantity
    is flagged as a counter, and the timer message exists. *)
Lemma initialize_local_more w :
  exists w',
    initialize INITSTAGE_LOCAL w = (Returned w', []) /\
    scheduler (app w') = true /\
    basePayloadBytes (app w') = int_wrap par_basePayloadBytes /\
    (forall i, lastValue (sensors (app w') i) = None /\
               isCounter (sensors (app w') i) = SensorID_eqb i SID_COUNTER).
Proof.
  unfold initialize. unfold bind.
  match goal with
  | |- context [initSensor SID_TEMPERATURE ?iv ?c ?w0] =>
      pose proof (initSensor_spec SID_TEMPERATURE iv c w0) as HT;
      pose proof (initSensor_more SID_TEMPERATURE iv c w0) as MT;
      destruct (initSensor SID_TEMPERATURE iv c w0) as [[u1 w1] o1]
  end.
  pose proof (initSensor_spec SID_NO2 par_no2Interval false w1) as HN.
  pose proof (initSensor_more SID_NO2 par_no2Interval false w1) as MN.
  destruct (initSensor SID_NO2 par_no2Interval false w1) as [[u2 w2] o2].
  pose proof (initSensor_spec SID_HUMIDITY par_humidityInterval false w2) as HH.
  pose proof (initSensor_more SID_HUMIDITY par_humidityInterval false w2) as MH.
  destruct (initSensor SID_HUMIDITY par_humidityInterval false w2) as [[u3 w3] o3].
  pose proof (initSensor_spec SID_COUNTER par_counterInterval true w3) as HC.
  pose proof (initSensor_more SID_COUNTER par_counterInterval true w3) as MC.
  destruct (initSensor SID_COUNTER par_counterInterval true w3) as [[u4 w4] o4].
  cbv zeta in HT, HN, HH, HC. unfold final, output in *. cbn [fst snd] in *.
  destruct HT as (ST & OT & FT & _). destruct HN as (SN & ON & FN & _).
  destruct HH as (SH & OH & FH & _). destruct HC as (SC & OC & FC & _).
  subst o1 o2 o3 o4.
  pose proof (static_trans _ _ _ (static_trans _ _ _ (static_trans _ _ _ ST SN) SH) SC)
    as S4.
  pose proof (static_basePayloadBytes _ _ S4) as B. cbn [app set_app basePayloadBytes] in B.
  eexists. split; [reflexivity|].
  cbn [app set_app set_scheduler scheduler sensors basePayloadBytes].
  splits; [reflexivity | exact B |].
  intro i. destruct i; cbn [SensorID_eqb].
  - rewrite !FC, !FH, !FN by discriminate. exact MT.
  - rewrite !FC, !FH by discriminate. exact MN.
  - rewrite !FC by discriminate. exact MH.
  - exact MC.
Qed.

(** The module state of the node after start-up is the one stage 0 left. *)
Lemma startup_app ids r0 t0 :
  exists w1,
    initialize INITSTAGE_LOCAL (mkWorld (App_default ids) t0 0%nat r0 None)
    = (Returned w1, []) /\
    app (world (startup ids r0 t0)) = app w1.
Proof.
  destruct (startup_eq ids r0 t0) as (w1 & E & ->). exists w1. split; [exact E|].
  rewrite after_world, initialize_app_eq. cbn [fst].
  destruct (applyInitialLoRaParams_spec w1) as (_ & A & _).
  destruct (scheduleNext_cases (final (applyInitialLoRaParams w1)))
    as [(_ & ->)|[(_ & _ & ->)|(_ & _ & ->)]]; cbn [outcome_world app set_fes]; exact A.
Qed.

(** ** Due times after a wake-up *)




Lemma loopBody_no_pktsent now i l w :
  emitted sigPktSent (output (loopBody now i l w)) = [].
Proof.
  rewrite loopBody_eq.
  destruct (Qle_bool (nextDue (sensors (app w) i)) now); tuple_simpl; [|reflexivity].
  destruct (sensor_id (sensors (app w) i)) eqn:E.
  - rewrite (sampleSensor_T _ _ _ E). reflexivity.
  - rewrite (sampleSensor_N_eq _ _ _ E). reflexivity.
  - rewrite (sampleSensor_H _ _ _ E). reflexivity.
  - rewrite (sampleSensor_C _ _ _ E). reflexivity.
Qed.

Lemma loop_no_pktsent now ids l w :
  emitted sigPktSent (output (forEach ids (loopBody now) l w)) = [].
Proof.
  revert l w. induction ids as [|i rest IH]; intros l w; [reflexivity|].
  rewrite forEach_cons. tuple_simpl.
  rewrite emitted_app, loopBody_no_pktsent, IH. reflexivity.
Qed.

(** One packets-sent report per packet of a wake-up, keyed by its bitmap. *)
Lemma sampleAndSendIfDue_pktsent w :
  emitted sigPktSent (output (sampleAndSendIfDue w)) =
    map (fun pkt => LongV (getBitmap (payload pkt)))
        (sent (output (sampleAndSendIfDue w))).
Proof.
  rewrite sampleAndSendIfDue_sent, sampleAndSendIfDue_eq.
  destruct (_ =? _)%Z; tuple_simpl.
  - apply loop_no_pktsent.
  - rewrite emitted_app, loop_no_pktsent. cbn [map List.app].
    rewrite attachLoRaTag_payload. reflexivity.
Qed.

(** ** Scheduling *)


(** X2.  Over every run from start-up, a pending timer is set to the due
    time of some quantity, no quantity has an earlier due time, and the time
    is below [SIMTIME_MAX] and not before the current clock: the node wakes
    up exactly when its next quantity is due, never late. *)
Theorem X2_timer_at_earliest_due
        (ids : SensorID -> SensorID) (r0 : option LoRaRadio) (t0 : Q)
        (evs : list HostEvent) (t : Q) :
  let w := world (run (startup ids r0 t0) evs) in
  fes w = Some t ->
  (exists i, nextDue (sensors (app w) i) = t) /\
  (forall j, t <= nextDue (sensors (app w) j)) /\
  t < SIMTIME_MAX /\
  simTime w <= t.
Proof.
  cbv zeta. intro F.
  destruct (run_armed ids r0 t0 evs t F) as (E & L & N).
  destruct (earliestNextDue_min (app (world (run (startup ids r0 t0) evs)))) as (Min & _).
  splits; try assumption.
  - rewrite E in L. destruct (earliestNextDue_attained _ L) as (i & Ei).
    exists i. rewrite E. symmetry. exact Ei.
  - intro j. rewrite E. apply Min.
Qed.

(** X3.  When the pending timer of a running node arrives, exactly one
    packet is sent; it is stamped with the arrival time, and every quantity
    that fires in this wake-up fires exactly at its due time. *)
Theorem X3_timer_arrival_sends_one_packet
        (ids : SensorID -> SensorID) (r0 : option LoRaRadio) (t0 : Q)
        (evs : list HostEvent) (t : Q) :
  SensorBits_ok ->
  let s := run (startup ids r0 t0) evs in
  running s = true ->
  fes (world s) = Some t ->
  exists pkt,
    sent (trace (deliver s TimerFires)) = sent (trace s) ++ [pkt] /\
    getCreatedAt (payload pkt) = t /\
    getNodeId (payload pkt) = getFullPath /\
    (forall i, due (timerArrival (world s) t) i = true ->
               nextDue (sensors (app (world s)) i) == t).
Proof.
  intros OK. cbv zeta. intros Run F.
  set (s := run (startup ids r0 t0) evs) in *.
  destruct (run_armed ids r0 t0 evs t F) as (E & L & _). fold s in E.
  destruct (earliestNextDue_min (app (world s))) as (Min & _).
  assert (A : exists i, nextDue (sensors (app (world s)) i) = t).
  { rewrite E in L. destruct (earliestNextDue_attained _ L) as (i & Ei).
    exists i. rewrite E. symmetry. exact Ei. }
  destruct A as (i & Ei).
  assert (D : due (timerArrival (world s) t) i = true).
  { unfold due. cbn [timerArrival app set_fes set_simTime simTime]. rewrite Ei.
    apply Qle_bool_iff. apply Qle_refl. }
  pose proof (loop_due_nonzero _ i OK D) as NZ. apply Z.eqb_neq in NZ.
  unfold deliver. rewrite Run, F. cbn [negb].
  rewrite after_trace, handleMessage_scheduler_eq. cbn [snd].
  rewrite sent_app, sampleAndSendIfDue_sent, NZ.
  eexists. split; [reflexivity|]. rewrite attachLoRaTag_payload.
  cbn [payload getCreatedAt getNodeId]. splits; try reflexivity.
  intros j Dj. unfold due in Dj. cbn [timerArrival app set_fes set_simTime simTime] in Dj.
  apply Qle_bool_iff in Dj. apply Qle_antisym; [exact Dj|]. rewrite E. apply Min.
Qed.

(** ** What a wake-up emits and sends *)

(** X4.  A wake-up with no quantity due has no output at all.  A wake-up
    with some quantity due emits its readings and then, as its last two
    actions, sends exactly one packet on [socketOut] and reports it on the
    packets-sent signal with the packet's bitmap as the value; the readings
    before contain no send and no packets-sent report. *)
Theorem X4_packet_iff_due (w : World) :
  SensorBits_ok ->
  ids_ok w ->
  ((forall i, due w i = false) -> output (sampleAndSendIfDue w) = []) /\
  (forall i, due w i = true ->
     exists pkt readings,
       output (sampleAndSendIfDue w) =
         readings ++ [Send pkt "socketOut";
                      Emit sigPktSent (LongV (getBitmap (payload pkt)))] /\
       readings <> [] /\
       sent readings = [] /\
       emitted sigPktSent readings = []).
Proof.
  intros OK IDS. split.
  - intro H. rewrite (sampleAndSendIfDue_nothing_due w H). reflexivity.
  - intros i D.
    pose proof (loop_due_nonzero w i OK D) as NZ.
    destruct (loop_exact w IDS) as (L & _). rewrite L in NZ. apply Z.eqb_neq in NZ.
    rewrite (sampleAndSendIfDue_exact w IDS), NZ.
    exists (result (attachLoRaTag (packetOf w (loopLocals w)) w)), (loopReadings w).
    rewrite attachLoRaTag_payload. cbn [packetOf payload getBitmap].
    split; [reflexivity|].
    unfold loopReadings. cbv zeta.
    destruct i; rewrite D;
      destruct (due w SID_TEMPERATURE), (due w SID_NO2), (due w SID_HUMIDITY),
               (due w SID_COUNTER);
      try discriminate; splits; try reflexivity; discriminate.
Qed.

(** X5.  The bitmap of the packet records exactly which quantities fired: the
    temperature, NO2 and counter bits are set if and only if that quantity
    was due, and the humidity bit if and only if the humidity or the
    temperature quantity was due. *)
Theorem X5_bitmap_records_firings (w : World) (pkt : Packet) :
  SensorBits_ok ->
  ids_ok w ->
  In pkt (sent (output (sampleAndSendIfDue w))) ->
  bit_set (getBitmap (payload pkt)) SB_TEMPERATURE = due w SID_TEMPERATURE /\
  bit_set (getBitmap (payload pkt)) SB_NO2 = due w SID_NO2 /\
  bit_set (getBitmap (payload pkt)) SB_HUMIDITY
    = (due w SID_TEMPERATURE || due w SID_HUMIDITY)%bool /\
  bit_set (getBitmap (payload pkt)) SB_COUNTER = due w SID_COUNTER.
Proof.
  intros OK IDS I. rewrite sampleAndSendIfDue_sent in I.
  destruct (_ =? _)%Z; [contradiction|]. destruct I as [<-|[]].
  rewrite attachLoRaTag_payload. cbn [payload getBitmap].
  destruct (loop_exact w IDS) as (-> & _). apply loopLocals_bits. exact OK.
Qed.

(** X6.  The fields of the packet: the temperature (NO2) field is [NAN]
    exactly when the temperature (NO2) quantity did not fire; the humidity
    field is [NAN] exactly when neither the humidity nor the temperature
    quantity fired; the counter field is the incremented counter when the
    counter fired and 0 otherwise. *)
Theorem X6_absent_fields_are_NAN (w : World) (pkt : Packet) :
  ids_ok w ->
  In pkt (sent (output (sampleAndSendIfDue w))) ->
  (getTemperature (payload pkt) = None <-> due w SID_TEMPERATURE = false) /\
  (getNo2 (payload pkt) = None <-> due w SID_NO2 = false) /\
  (getHumidity (payload pkt) = None <->
   due w SID_TEMPERATURE = false /\ due w SID_HUMIDITY = false) /\
  getCounter (payload pkt) =
    (if due w SID_COUNTER
     then int_wrap (counter (sensors (app w) SID_COUNTER) + 1) else 0%Z).
Proof.
  intros IDS I. rewrite sampleAndSendIfDue_sent in I.
  destruct (_ =? _)%Z; [contradiction|]. destruct I as [<-|[]].
  rewrite attachLoRaTag_payload.
  cbn [payload getTemperature getNo2 getHumidity getCounter].
  destruct (loop_exact w IDS) as (-> & _). unfold loopLocals. cbv zeta.
  destruct (due w SID_TEMPERATURE), (due w SID_NO2), (due w SID_HUMIDITY),
           (due w SID_COUNTER);
    cbn [temperature no2 humidity counterVal];
    splits; try reflexivity; split; intros; try discriminate; try reflexivity;
    try tauto; intuition discriminate.
Qed.

(** X7.  What is transmitted is what was reported: the values emitted on the
    temperature and NO2 signals in a wake-up are the packet's temperature and
    NO2 fields, the value emitted on the counter signal is the packet's
    counter field, and the packet's humidity field is the last value emitted
    on the humidity signal (the only one unless both the temperature and the
    humidity quantity fired). *)
Theorem X7_emitted_is_transmitted (w : World) (pkt : Packet) :
  ids_ok w ->
  In pkt (sent (output (sampleAndSendIfDue w))) ->
  let o := output (sampleAndSendIfDue w) in
  emitted sigTemp o = readingOf (getTemperature (payload pkt)) /\
  emitted sigNO2 o = readingOf (getNo2 (payload pkt)) /\
  emitted sigCounter o =
    (if due w SID_COUNTER then [LongV (getCounter (payload pkt))] else []) /\
  emitted sigHum o =
    (if (due w SID_TEMPERATURE && due w SID_HUMIDITY)%bool
     then [DoubleV (humidityAt w (S (rng w)))] else [])
    ++ readingOf (getHumidity (payload pkt)).
Proof.
  intros IDS I. cbv zeta. rewrite sampleAndSendIfDue_sent in I.
  rewrite (sampleAndSendIfDue_exact w IDS).
  destruct (loop_exact w IDS) as (L & _). rewrite L in I.
  destruct (_ =? _)%Z; [contradiction|]. destruct I as [<-|[]].
  rewrite attachLoRaTag_payload.
  cbn [payload getTemperature getNo2 getHumidity getCounter].
  rewrite !emitted_app. unfold loopReadings, loopLocals. cbv zeta.
  destruct (due w SID_TEMPERATURE), (due w SID_NO2), (due w SID_HUMIDITY),
           (due w SID_COUNTER);
    cbn [temperature no2 humidity counterVal andb];
    splits; reflexivity.
Qed.

(** X8.  What a wake-up leaves behind in the module: everything but the
    sensor table and the random cursor is as before; a quantity that was not
    due has its whole state unchanged (the humidity quantity too when only
    the temperature quantity fired); no quantity changes its id, interval or
    counter flag; and the random cursor has advanced by the draws of the
    quantities that fired: two readings for temperature, one for NO2 and
    humidity, none for the counter, plus one jitter draw for each firing
    quantity with a positive interval. *)
Theorem X8_wakeup_frame (w : World) :
  ids_ok w ->
  let w' := final (sampleAndSendIfDue w) in
  static w w' /\
  (forall i, due w i = false -> sensors (app w') i = sensors (app w) i) /\
  (forall i, sensor_id (sensors (app w') i) = sensor_id (sensors (app w) i) /\
             interval (sensors (app w') i) = interval (sensors (app w) i) /\
             isCounter (sensors (app w') i) = isCounter (sensors (app w) i)) /\
  rng w' =
    (rng w + drawsOf w SID_TEMPERATURE + drawsOf w SID_NO2
     + drawsOf w SID_HUMIDITY + drawsOf w SID_COUNTER)%nat.
Proof.
  intros IDS. cbv zeta. splits.
  - apply sampleAndSendIfDue_static.
  - intros i D. apply sampleAndSendIfDue_not_due. exact D.
  - rewrite sampleAndSendIfDue_final. apply loop_spec.
  - rewrite sampleAndSendIfDue_final. apply (loop_exact_state w IDS).
Qed.

(** X9.  The reading a quantity retains: when the NO2 quantity fires, its
    [lastValue] becomes the NO2 field of the packet; when the humidity
    quantity fires, its [lastValue] becomes the humidity field of the packet;
    the temperature and the counter quantity never store a [lastValue], and
    the humidity reading taken along with a temperature firing is not stored
    either. *)
Theorem X9_retained_readings (w : World) (pkt : Packet) :
  ids_ok w ->
  In pkt (sent (output (sampleAndSendIfDue w))) ->
  let w' := final (sampleAndSendIfDue w) in
  (due w SID_NO2 = true ->
   lastValue (sensors (app w') SID_NO2) = getNo2 (payload pkt)) /\
  (due w SID_HUMIDITY = true ->
   lastValue (sensors (app w') SID_HUMIDITY) = getHumidity (payload pkt)) /\
  (due w SID_HUMIDITY = false ->
   lastValue (sensors (app w') SID_HUMIDITY) = lastValue (sensors (app w) SID_HUMIDITY)) /\
  lastValue (sensors (app w') SID_TEMPERATURE) = lastValue (sensors (app w) SID_TEMPERATURE) /\
  lastValue (sensors (app w') SID_COUNTER) = lastValue (sensors (app w) SID_COUNTER).
Proof.
  intros IDS I. cbv zeta. rewrite sampleAndSendIfDue_sent in I.
  destruct (loop_exact w IDS) as (L & _). rewrite L in I.
  destruct (_ =? _)%Z; [contradiction|]. destruct I as [<-|[]].
  rewrite attachLoRaTag_payload. cbn [payload getNo2 getHumidity].
  rewrite sampleAndSendIfDue_final.
  destruct (loop_exact_state w IDS) as (_ & V).
  splits.
  - intro D. rewrite V, D. reflexivity.
  - intro D. rewrite V, D. reflexivity.
  - intro D. rewrite V, D. reflexivity.
  - rewrite V. destruct (due w SID_TEMPERATURE); reflexivity.
  - rewrite V. destruct (due w SID_COUNTER); reflexivity.
Qed.

(** ** Over a whole run *)

(** X10.  Over every run from start-up, the temperature and the counter
    quantity never hold a retained reading: their [lastValue] is [NAN] at
    start-up and after every delivery. *)
Theorem X10_temperature_never_retained
        (ids : SensorID -> SensorID) (r0 : option LoRaRadio) (t0 : Q)
        (evs : list HostEvent) :
  let w := world (run (startup ids r0 t0) evs) in
  lastValue (sensors (app w) SID_TEMPERATURE) = None /\
  lastValue (sensors (app w) SID_COUNTER) = None.
Proof.
  cbv zeta.
  apply (run_invariant
           (fun s => ids_ok (world s) /\
                     lastValue (sensors (app (world s)) SID_TEMPERATURE) = None /\
                     lastValue (sensors (app (world s)) SID_COUNTER) = None)).
  - intros s ev (IDS & VT & VC).
    destruct (deliver_cases s ev) as [->|[(t & F & ->)|[(t & ->) | ->]]].
    + splits; assumption.
    + rewrite after_world, handleMessage_scheduler_eq. cbn [fst].
      set (w1 := timerArrival (world s) t).
      assert (IDS1 : ids_ok w1) by exact IDS.
      assert (A : app (outcome_world
                         (match scheduleNext (final (sampleAndSendIfDue w1)) with
                          | Some w2 => Returned w2
                          | None => Thrown (final (sampleAndSendIfDue w1))
                          end)) = app (final (sampleAndSendIfDue w1))).
      { destruct (scheduleNext_cases (final (sampleAndSendIfDue w1)))
          as [(_ & ->)|[(_ & _ & ->)|(_ & _ & ->)]]; reflexivity. }
      unfold ids_ok. rewrite A.
      split; [apply sampleAndSendIfDue_ids_ok; exact IDS1|].
      rewrite sampleAndSendIfDue_final.
      destruct (loop_exact_state w1 IDS1) as (_ & V). rewrite !V.
      destruct (due w1 SID_TEMPERATURE), (due w1 SID_COUNTER); split; assumption.
    + cbn [world]. splits; assumption.
    + cbn [world]. unfold ids_ok. rewrite !finish_sensors. splits; assumption.
  - destruct (startup_app ids r0 t0) as (w1 & E & A).
    destruct (initialize_local_more (mkWorld (App_default ids) t0 0%nat r0 None))
      as (w1' & E' & _ & _ & V).
    rewrite E in E'. injection E' as <-.
    split; [intro i; apply startup_spec|]. rewrite A. split; apply V.
Qed.

(** X11.  A node whose four intervals are all non-positive is idle for
    ever: over every run from start-up no timer is pending, every due time
    is [SIMTIME_MAX], and nothing is ever emitted or sent. *)
Theorem X11_all_disabled_is_idle
        (ids : SensorID -> SensorID) (r0 : option LoRaRadio) (t0 : Q)
        (evs : list HostEvent) :
  (forall i, par_interval i <= 0) ->
  let s := run (startup ids r0 t0) evs in
  trace s = [] /\
  fes (world s) = None /\
  (forall i, nextDue (sensors (app (world s)) i) = SIMTIME_MAX).
Proof.
  intros Dis. cbv zeta.
  apply (run_invariant
           (fun s => trace s = [] /\ fes (world s) = None /\
                     forall i, nextDue (sensors (app (world s)) i) = SIMTIME_MAX)).
  - intros s ev (T & F & N).
    destruct (deliver_cases s ev) as [->|[(t & F' & ->)|[(t & ->) | ->]]].
    + splits; assumption.
    + rewrite F in F'. discriminate.
    + cbn [world trace]. rewrite app_nil_r. splits; assumption.
    + cbn [world trace]. split; [exact T|]. split.
      * unfold finish. destruct (scheduler (app (world s))); [reflexivity | exact F].
      * intro i. rewrite finish_sensors. apply N.
  - destruct (startup_spec ids r0 t0) as (T & _ & _ & _ & _ & S).
    assert (N : forall i, nextDue (sensors (app (world (startup ids r0 t0))) i)
                          = SIMTIME_MAX).
    { intro i. apply S. apply Dis. }
    split; [exact T|]. split; [|exact N].
    destruct (fes (world (startup ids r0 t0))) as [t|] eqn:F; [|reflexivity].
    exfalso. destruct (run_armed ids r0 t0 [] t F) as (E & L & _).
    cbn [run fold_left] in E. rewrite E in L.
    destruct (earliestNextDue_attained _ L) as (i & Ei).
    rewrite Ei, N in L. exact (Qlt_irrefl _ L).
Qed.




(** X15.  Over every run from start-up, the packets-sent signal has carried
    exactly one value per packet sent, in the same order, and each value is
    the bitmap of its packet. *)
Theorem X15_one_report_per_packet
        (ids : SensorID -> SensorID) (r0 : option LoRaRadio) (t0 : Q)
        (evs : list HostEvent) :
  let s := run (startup ids r0 t0) evs in
  emitted sigPktSent (trace s)
  = map (fun pkt => LongV (getBitmap (payload pkt))) (sent (trace s)).
Proof.
  cbv zeta.
  apply (run_invariant
           (fun s => emitted sigPktSent (trace s)
                     = map (fun pkt => LongV (getBitmap (payload pkt))) (sent (trace s)))).
  - intros s ev H.
    destruct (deliver_cases s ev) as [->|[(t & F & ->)|[(t & ->) | ->]]].
    + exact H.
    + rewrite after_trace, handleMessage_scheduler_eq. cbn [snd].
      rewrite emitted_app, sent_app, map_app, H, sampleAndSendIfDue_pktsent. reflexivity.
    + cbn [trace]. rewrite app_nil_r. exact H.
    + exact H.
  - destruct (startup_spec ids r0 t0) as (-> & _). reflexivity.
Qed.

(** X16.  [finish] cancels the timer: in every state a run from start-up can
    reach, finishing leaves no pending timer and no timer message, touches
    neither the sensor table nor the radio, and finishing twice is the same
    as finishing once. *)
Theorem X16_finish_cancels_timer
        (ids : SensorID -> SensorID) (r0 : option LoRaRadio) (t0 : Q)
        (evs : list HostEvent) :
  let w := world (run (startup ids r0 t0) evs) in
  fes (finish w) = None /\
  scheduler (app (finish w)) = false /\
  sensors (app (finish w)) = sensors (app w) /\
  radio (finish w) = radio w /\
  finish (finish w) = finish w.
Proof.
  cbv zeta.
  assert (H : scheduler (app (world (run (startup ids r0 t0) evs))) = true \/
              fes (world (run (startup ids r0 t0) evs)) = None).
  { apply (run_invariant
             (fun s => scheduler (app (world s)) = true \/ fes (world s) = None)).
    - intros s ev H.
      destruct (deliver_cases s ev) as [->|[(t & F & ->)|[(t & ->) | ->]]].
      + exact H.
      + destruct H as [H|H]; [|rewrite H in F; discriminate]. left.
        rewrite after_world, handleMessage_scheduler_eq. cbn [fst].
        set (w1 := timerArrival (world s) t).
        pose proof (static_scheduler _ _ (sampleAndSendIfDue_static w1)) as Sc.
        destruct (scheduleNext_cases (final (sampleAndSendIfDue w1)))
          as [(_ & ->)|[(_ & _ & ->)|(_ & _ & ->)]];
          cbn [outcome_world app set_fes]; rewrite Sc; exact H.
      + exact H.
      + right. cbn [world]. unfold finish.
        destruct (scheduler (app (world s))) eqn:Sc; [reflexivity|].
        destruct H as [H|H]; [congruence | exact H].
    - left. destruct (startup_app ids r0 t0) as (w1 & E & ->).
      destruct (initialize_local_more (mkWorld (App_default ids) t0 0%nat r0 None))
        as (w1' & E' & Sc & _).
      rewrite E in E'. injection E' as <-. exact Sc. }
  set (w := world (run (startup ids r0 t0) evs)) in *.
  unfold finish. destruct (scheduler (app w)) eqn:Sc.
  - cbn [fes set_fes app set_app set_scheduler scheduler sensors radio].
    splits; reflexivity.
  - rewrite Sc. destruct H as [H|H]; [discriminate|]. splits; auto.
Qed.




(** ** The signal generators and the path loss *)

(** X20.  Each signal generator makes exactly one random draw and changes
    nothing else.  If [sin] stays within [-1, 1] and the amplitudes are not
    negative, the reading without its noise term stays in a band: within the
    amplitude of the base for temperature and humidity, and between the base
    and base + amplitude for NO2. *)
Theorem X20_generator_bands (w : World) :
  (forall x, -1 <= sin x <= 1) ->
  0 <= ampTemp (app w) -> 0 <= ampHum (app w) -> 0 <= ampNO2 (app w) ->
  let k := rng w in
  (final (genTemperature w) = set_rng (S k) w /\
   final (genHumidity w) = set_rng (S k) w /\
   final (genNO2 w) = set_rng (S k) w) /\
  (baseTemp (app w) - ampTemp (app w)
   <= result (genTemperature w) - (0 + 0.2 * stdNormal k)
   <= baseTemp (app w) + ampTemp (app w)) /\
  (baseHum (app w) - ampHum (app w)
   <= result (genHumidity w) - (0 + 0.5 * stdNormal k)
   <= baseHum (app w) + ampHum (app w)) /\
  (baseNO2 (app w)
   <= result (genNO2 w) - (0 + 0.1 * stdNormal k)
   <= baseNO2 (app w) + ampNO2 (app w)).
Proof.
  intros Hs AT AH AN. cbv zeta.
  unfold genTemperature, genHumidity, genNO2, bind, getWorld, normal, ret, result, final.
  cbn [fst snd app simTime set_rng rng].
  assert (Prod : forall a x, 0 <= a -> -1 <= x <= 1 -> - a <= a * x <= a).
  { intros a x A (X0 & X1).
    assert (P1 : 0 <= a * (1 - x)) by (apply Qmult_le_0_compat; lra).
    assert (P2 : 0 <= a * (1 + x)) by (apply Qmult_le_0_compat; lra).
    split; lra. }
  split; [splits; destruct w; reflexivity|].
  pose proof (Prod _ _ AT (Hs (2 * M_PI * (simTime w / 3600 / 24)))) as PT.
  pose proof (Prod _ _ AH (Hs (2 * M_PI * (simTime w / 3600 / 24) + M_PI / 4))) as PH.
  pose proof (Prod _ _ AN (Hs (2 * M_PI * (simTime w / 3600 / 12)))) as PN.
  splits; lra.
Qed.

(** X21.  The vegetation term of the path loss does not depend on the
    distance of the link: two distances at the same frequency differ in path
    loss exactly as their free-space losses do.  And wherever [pow] returns
    non-negative values, the total loss is never below the free-space
    loss. *)
Theorem X21_vegetation_term {E : WeissbergerPathLoss.Env}
        (d1 d2 frequency : Q) :
  WeissbergerPathLoss.computePathLoss d1 frequency
  - WeissbergerPathLoss.FreeSpacePathLoss_computePathLoss d1 frequency
  == WeissbergerPathLoss.computePathLoss d2 frequency
     - WeissbergerPathLoss.FreeSpacePathLoss_computePathLoss d2 frequency /\
  ((forall x y, 0 <= WeissbergerPathLoss.pow x y) ->
   WeissbergerPathLoss.FreeSpacePathLoss_computePathLoss d1 frequency
   <= WeissbergerPathLoss.computePathLoss d1 frequency).
Proof.
  unfold WeissbergerPathLoss.computePathLoss. split.
  - destruct (Qlt_bool 0 WeissbergerPathLoss.par_vegetationDepth); [|lra].
    destruct (Qle_bool WeissbergerPathLoss.par_vegetationDepth 14.0); lra.
  - intro Pow.
    destruct (Qlt_bool 0 WeissbergerPathLoss.par_vegetationDepth) eqn:D; [|lra].
    apply Qlt_bool_iff in D.
    pose proof (Pow (frequency / 1e9) 0.284) as P1.
    pose proof (Pow WeissbergerPathLoss.par_vegetationDepth 0.588) as P2.
    destruct (Qle_bool WeissbergerPathLoss.par_vegetationDepth 14.0).
    + assert (P : 0 <= WeissbergerPathLoss.pow (frequency / 1e9) 0.284
                       * WeissbergerPathLoss.par_vegetationDepth)
        by (apply Qmult_le_0_compat; lra).
      lra.
    + assert (P : 0 <= WeissbergerPathLoss.pow (frequency / 1e9) 0.284
                       * WeissbergerPathLoss.pow WeissbergerPathLoss.par_vegetationDepth 0.588)
        by (apply Qmult_le_0_compat; lra).
      lra.
Qed.

End Properties.

(** * The theorems at concrete inputs *)

#[local] Existing Instance bits1248.

Lemma bits1248_ok : SensorBits_ok (SB := bits1248).
Proof. unfold SensorBits_ok. cbn. repeat split; discriminate. Qed.

Lemma C6_nothing_due_is_silent_witness :
  (forall i, due (world simTH) i = false) /\
  sampleAndSendIfDue (RT := runtimeHalf) (SB := bits1248) (PAR := paramsTH) (world simTH)
  = (tt, world simTH, []).
Proof.
  split.
  - intro i; destruct i; vm_compute; reflexivity.
  - apply (C6_nothing_due_is_silent (RT := runtimeHalf) (SB := bits1248)
             (PAR := paramsTH) (world simTH)).
    intro i; destruct i; vm_compute; reflexivity.
Defined.


Lemma C2_temperature_brings_humidity_witness :
  due worldTH_at10 SID_TEMPERATURE = true /\
  due worldTH_at10 SID_HUMIDITY = false /\
  exists pkt,
    sent (output (sampleAndSendIfDue (RT := runtimeHalf) (SB := bits1248)
                                     (PAR := paramsTH) worldTH_at10)) = [pkt] /\
    bit_set (getBitmap (payload pkt)) SB_TEMPERATURE = true /\
    bit_set (getBitmap (payload pkt)) SB_HUMIDITY = true.
Proof.
  split; [vm_compute; reflexivity|]. split; [vm_compute; reflexivity|].
  apply (C2_temperature_brings_humidity (RT := runtimeHalf) (SB := bits1248)
           (PAR := paramsTH) worldTH_at10 bits1248_ok); vm_compute; reflexivity.
Defined.


Lemma runtimeStall_draws k : 0 <= doubleRand (Runtime := runtimeStall) k <= 1.
Proof. destruct k; cbn; lra. Qed.

(** C1, as worded, fails: the radio next to the node is not what it was
    before start-up. *)
Lemma C1_counterexample :
  radio (world simRadio) <> Some radio7 /\
  radio (world simRadio) = Some (mkLoRaRadio 14 868000000 12 125000 4).
Proof. split; [vm_compute; discriminate | vm_compute; reflexivity]. Qed.



(** With a negative jitter fraction the window of C4 is empty: here the new
    due time is 20, the window bounds are 21 and 19. *)
Example C4_negative_jitter_fraction :
  let w := atTimer simNegative in
  let x := nextDue (sensors (app (final (sampleAndSendIfDue
                                           (RT := runtimeHalf) (PAR := paramsNegative)
                                           w))) SID_TEMPERATURE) in
  due w SID_TEMPERATURE = true /\
  x == 20 /\
  simTime w + interval (sensors (app w) SID_TEMPERATURE) * (1 - jitterFrac (app w)) == 21 /\
  simTime w + interval (sensors (app w) SID_TEMPERATURE) * (1 + jitterFrac (app w)) == 19.
Proof. cbv zeta. repeat split; vm_compute; reflexivity. Qed.

Lemma C5_disabled_quantity_witness :
  SensorBits_ok /\
  par_interval (PAR := paramsTH) SID_NO2 <= 0 /\
  let s := run (RT := runtimeHalf) (PAR := paramsTH) simTH [TimerFires; TimerFires] in
  nextDue (sensors (app (world s)) SID_NO2) = SIMTIME_MAX (Runtime := runtimeHalf) /\
  (forall pkt, In pkt (sent (trace s)) ->
     (SID_NO2 <> SID_HUMIDITY ->
      bit_set (getBitmap (payload pkt)) (SB_of SID_NO2) = false) /\
     (SID_NO2 = SID_HUMIDITY ->
      bit_set (getBitmap (payload pkt)) SB_HUMIDITY = true ->
      bit_set (getBitmap (payload pkt)) SB_TEMPERATURE = true)).
Proof.
  assert (D : par_interval (PAR := paramsTH) SID_NO2 <= 0) by (vm_compute; discriminate).
  split; [exact bits1248_ok|]. split; [exact D|].
  exact (C5_disabled_quantity (RT := runtimeHalf) (SB := bits1248) (PAR := paramsTH)
           (fun i => i) None 0 [TimerFires; TimerFires] SID_NO2 bits1248_ok D).
Defined.

(** C5, as worded, fails for the humidity quantity: it is disabled in
    [simNoHum], its due time is [SIMTIME_MAX] throughout, and the packet of
    the first wake-up has the humidity presence bit set. *)
Lemma C5_counterexample :
  let s := run (RT := runtimeHalf) (PAR := paramsNoHum) simNoHum [TimerFires] in
  par_interval (PAR := paramsNoHum) SID_HUMIDITY <= 0 /\
  nextDue (sensors (app (world simNoHum)) SID_HUMIDITY) = SIMTIME_MAX (Runtime := runtimeHalf) /\
  nextDue (sensors (app (world s)) SID_HUMIDITY) = SIMTIME_MAX (Runtime := runtimeHalf) /\
  map (fun pkt => bit_set (getBitmap (payload pkt)) SB_HUMIDITY) (sent (trace s)) = [true].
Proof.
  cbv zeta. split; [vm_compute; discriminate|]. repeat split; vm_compute; reflexivity.
Qed.


Lemma C8_no_radio_no_tag_witness :
  SensorBits_ok /\
  let s := run (RT := runtimeHalf) (PAR := paramsTH) simTH [TimerFires] in
  loRaRadio (app (world s)) = false /\
  List.length (sent (trace s)) = 1%nat /\
  (forall pkt, In pkt (sent (trace s)) -> loRaTag pkt = None).
Proof.
  split; [exact bits1248_ok|]. cbv zeta.
  destruct (C8_no_radio_no_tag (RT := runtimeHalf) (SB := bits1248) (PAR := paramsTH)
              (fun i => i) 0 [TimerFires] bits1248_ok) as (A & _ & C & _).
  split; [exact A|]. split; [vm_compute; reflexivity | exact C].
Defined.

Lemma C9_vegetation_loss_witness :
  0 < WeissbergerPathLoss.par_vegetationDepth (Env := envFoliage10) /\
  WeissbergerPathLoss.par_vegetationDepth (Env := envFoliage10) <= 14 /\
  WeissbergerPathLoss.computePathLoss (E := envFoliage10) 1000 868000000 ==
    100 + 0.45 * WeissbergerPathLoss.pow (Env := envFoliage10) (868000000 / 1e9) 0.284 * 10.
Proof.
  assert (A : 0 < WeissbergerPathLoss.par_vegetationDepth (Env := envFoliage10))
    by (vm_compute; reflexivity).
  assert (B : WeissbergerPathLoss.par_vegetationDepth (Env := envFoliage10) <= 14)
    by (vm_compute; discriminate).
  split; [exact A|]. split; [exact B|].
  exact (proj1 (C9_vegetation_loss (E := envFoliage10) 1000 868000000) A B).
Defined.

Lemma C10_humidity_sampled_twice_witness :
  let w := atTimer simBoth in
  SensorBits_ok /\
  ids_ok w /\
  due w SID_TEMPERATURE = true /\
  due w SID_HUMIDITY = true /\
  exists (k : nat) (pkt : Packet),
    (rng w + 2 <= k)%nat /\
    emitted sigHum (output (sampleAndSendIfDue (RT := runtimeHalf) (PAR := paramsBoth) w)) =
      [DoubleV (humidityAt (RT := runtimeHalf) w (S (rng w)));
       DoubleV (humidityAt (RT := runtimeHalf) w k)] /\
    sent (output (sampleAndSendIfDue (RT := runtimeHalf) (PAR := paramsBoth) w)) = [pkt] /\
    getHumidity (payload pkt) = Some (humidityAt (RT := runtimeHalf) w k).
Proof.
  cbv zeta.
  assert (I : ids_ok (atTimer simBoth)) by (intro i; destruct i; vm_compute; reflexivity).
  assert (T : due (atTimer simBoth) SID_TEMPERATURE = true) by (vm_compute; reflexivity).
  assert (H : due (atTimer simBoth) SID_HUMIDITY = true) by (vm_compute; reflexivity).
  split; [exact bits1248_ok|]. split; [exact I|]. split; [exact T|]. split; [exact H|].
  exact (C10_humidity_sampled_twice (RT := runtimeHalf) (SB := bits1248)
           (PAR := paramsBoth) (atTimer simBoth) bits1248_ok I T H).
Defined.

(** The two humidity readings of that wake-up come from the third and the
    fifth draw of the run and differ. *)
Example C10_two_different_readings :
  let w := atTimer simBoth in
  emitted sigHum (output (sampleAndSendIfDue (RT := runtimeHalf) (PAR := paramsBoth) w)) =
    [DoubleV (humidityAt (RT := runtimeHalf) w 3);
     DoubleV (humidityAt (RT := runtimeHalf) w 5)] /\
  ~ humidityAt (RT := runtimeHalf) w 3 == humidityAt (RT := runtimeHalf) w 5.
Proof. cbv zeta. split; [vm_compute; reflexivity | vm_compute; discriminate]. Qed.

(** * The further properties at concrete inputs *)

Lemma X2_timer_at_earliest_due_witness :
  exists t,
    fes (world (run (RT := runtimeHalf) (PAR := paramsTH)
                    (startup (RT := runtimeHalf) (PAR := paramsTH) (fun i => i) None 0)
                    [TimerFires])) = Some t /\
    t < SIMTIME_MAX (Runtime := runtimeHalf).
Proof.
  eexists. split; [vm_compute; reflexivity|].
  refine (proj1 (proj2 (proj2 (X2_timer_at_earliest_due
                                 (RT := runtimeHalf) (SB := bits1248) (PAR := paramsTH)
                                 (fun i => i) None 0 [TimerFires] _ _)))).
  vm_compute. reflexivity.
Defined.

Lemma X3_timer_arrival_sends_one_packet_witness :
  let s := run (RT := runtimeHalf) (PAR := paramsTH)
               (startup (RT := runtimeHalf) (PAR := paramsTH) (fun i => i) None 0) [] in
  exists t pkt,
    running s = true /\
    fes (world s) = Some t /\
    sent (trace (deliver (RT := runtimeHalf) (PAR := paramsTH) s TimerFires))
    = sent (trace s) ++ [pkt] /\
    getCreatedAt (payload pkt) = t.
Proof.
  cbv zeta.
  assert (R : running (run (RT := runtimeHalf) (PAR := paramsTH)
                           (startup (RT := runtimeHalf) (PAR := paramsTH)
                                    (fun i => i) None 0) []) = true)
    by (vm_compute; reflexivity).
  assert (F : exists t,
             fes (world (run (RT := runtimeHalf) (PAR := paramsTH)
                             (startup (RT := runtimeHalf) (PAR := paramsTH)
                                      (fun i => i) None 0) [])) = Some t)
    by (eexists; vm_compute; reflexivity).
  destruct F as (t & F). exists t.
  destruct (X3_timer_arrival_sends_one_packet
              (RT := runtimeHalf) (SB := bits1248) (PAR := paramsTH)
              (fun i => i) None 0 [] t bits1248_ok R F) as (pkt & S & C & _).
  exists pkt. split; [exact R|]. split; [exact F|]. split; [exact S | exact C].
Defined.

Lemma worldTH_ids_ok : ids_ok worldTH_at10.
Proof. intro i; destruct i; vm_compute; reflexivity. Qed.

Lemma worldTH_sends :
  exists pkt,
    In pkt (sent (output (sampleAndSendIfDue (RT := runtimeHalf) (PAR := paramsTH)
                                             worldTH_at10))).
Proof. eexists. vm_compute. left. reflexivity. Qed.

Lemma X4_packet_iff_due_witness :
  due worldTH_at10 SID_TEMPERATURE = true /\
  exists pkt readings,
    output (sampleAndSendIfDue (RT := runtimeHalf) (PAR := paramsTH) worldTH_at10) =
      readings ++ [Send pkt "socketOut";
                   Emit sigPktSent (LongV (getBitmap (payload pkt)))] /\
    readings <> [] /\ sent readings = [] /\ emitted sigPktSent readings = [].
Proof.
  assert (D : due worldTH_at10 SID_TEMPERATURE = true) by (vm_compute; reflexivity).
  split; [exact D|].
  exact (proj2 (X4_packet_iff_due (RT := runtimeHalf) (SB := bits1248) (PAR := paramsTH)
                                  worldTH_at10 bits1248_ok worldTH_ids_ok)
               SID_TEMPERATURE D).
Defined.

Lemma X5_bitmap_records_firings_witness :
  exists pkt,
    In pkt (sent (output (sampleAndSendIfDue (RT := runtimeHalf) (PAR := paramsTH)
                                             worldTH_at10))) /\
    bit_set (getBitmap (payload pkt)) SB_TEMPERATURE = due worldTH_at10 SID_TEMPERATURE /\
    bit_set (getBitmap (payload pkt)) SB_NO2 = due worldTH_at10 SID_NO2 /\
    bit_set (getBitmap (payload pkt)) SB_HUMIDITY
    = (due worldTH_at10 SID_TEMPERATURE || due worldTH_at10 SID_HUMIDITY)%bool /\
    bit_set (getBitmap (payload pkt)) SB_COUNTER = due worldTH_at10 SID_COUNTER.
Proof.
  destruct worldTH_sends as (pkt & I). exists pkt. split; [exact I|].
  exact (X5_bitmap_records_firings (RT := runtimeHalf) (SB := bits1248) (PAR := paramsTH)
           worldTH_at10 pkt bits1248_ok worldTH_ids_ok I).
Defined.

Lemma X6_absent_fields_are_NAN_witness :
  exists pkt,
    In pkt (sent (output (sampleAndSendIfDue (RT := runtimeHalf) (PAR := paramsTH)
                                             worldTH_at10))) /\
    (getNo2 (payload pkt) = None <-> due worldTH_at10 SID_NO2 = false) /\
    getCounter (payload pkt) = 0%Z.
Proof.
  destruct worldTH_sends as (pkt & I). exists pkt. split; [exact I|].
  destruct (X6_absent_fields_are_NAN (RT := runtimeHalf) (SB := bits1248)
              (PAR := paramsTH) worldTH_at10 pkt worldTH_ids_ok I) as (_ & N & _ & C).
  split; [exact N|]. rewrite C. vm_compute. reflexivity.
Defined.

Lemma X7_emitted_is_transmitted_witness :
  exists pkt,
    In pkt (sent (output (sampleAndSendIfDue (RT := runtimeHalf) (PAR := paramsTH)
                                             worldTH_at10))) /\
    emitted sigTemp
            (output (sampleAndSendIfDue (RT := runtimeHalf) (PAR := paramsTH) worldTH_at10))
    = readingOf (getTemperature (payload pkt)).
Proof.
  destruct worldTH_sends as (pkt & I). exists pkt. split; [exact I|].
  exact (proj1 (X7_emitted_is_transmitted (RT := runtimeHalf) (SB := bits1248)
                  (PAR := paramsTH) worldTH_at10 pkt worldTH_ids_ok I)).
Defined.

Lemma X8_wakeup_frame_witness :
  ids_ok worldTH_at10 /\
  rng (final (sampleAndSendIfDue (RT := runtimeHalf) (PAR := paramsTH) worldTH_at10)) = 5%nat.
Proof.
  split; [exact worldTH_ids_ok|].
  destruct (X8_wakeup_frame (RT := runtimeHalf) (SB := bits1248) (PAR := paramsTH)
              worldTH_at10 worldTH_ids_ok) as (_ & _ & _ & R).
  rewrite R. vm_compute. reflexivity.
Defined.

Lemma worldBoth_ids_ok : ids_ok (atTimer simBoth).
Proof. intro i; destruct i; vm_compute; reflexivity. Qed.

Lemma X9_retained_readings_witness :
  exists pkt,
    In pkt (sent (output (sampleAndSendIfDue (RT := runtimeHalf) (PAR := paramsBoth)
                                             (atTimer simBoth)))) /\
    due (atTimer simBoth) SID_HUMIDITY = true /\
    lastValue (sensors (app (final (sampleAndSendIfDue
                                      (RT := runtimeHalf) (PAR := paramsBoth)
                                      (atTimer simBoth)))) SID_HUMIDITY)
    = getHumidity (payload pkt).
Proof.
  assert (I : exists pkt,
             In pkt (sent (output (sampleAndSendIfDue
                                     (RT := runtimeHalf) (PAR := paramsBoth)
                                     (atTimer simBoth)))))
    by (eexists; vm_compute; left; reflexivity).
  assert (D : due (atTimer simBoth) SID_HUMIDITY = true) by (vm_compute; reflexivity).
  destruct I as (pkt & I). exists pkt. split; [exact I|]. split; [exact D|].
  destruct (X9_retained_readings (RT := runtimeHalf) (SB := bits1248) (PAR := paramsBoth)
              (atTimer simBoth) pkt worldBoth_ids_ok I) as (_ & H & _).
  exact (H D).
Defined.

Lemma X11_all_disabled_is_idle_witness :
  (forall i, par_interval (PAR := paramsNone) i <= 0) /\
  let s := run (RT := runtimeHalf) (PAR := paramsNone)
               (startup (RT := runtimeHalf) (PAR := paramsNone) (fun i => i) None 0)
               [TimerFires; MessageArrives 5 true; TimerFires] in
  trace s = [] /\ fes (world s) = None.
Proof.
  assert (D : forall i, par_interval (PAR := paramsNone) i <= 0)
    by (intro i; destruct i; vm_compute; discriminate).
  split; [exact D|]. cbv zeta.
  destruct (X11_all_disabled_is_idle (RT := runtimeHalf) (SB := bits1248)
              (PAR := paramsNone) (fun i => i) None 0
              [TimerFires; MessageArrives 5 true; TimerFires] D) as (T & F & _).
  split; [exact T | exact F].
Defined.






Lemma clampUnit_bounds x : -1 <= clampUnit x <= 1.
Proof.
  unfold clampUnit. destruct (Qle_bool x (-1)) eqn:A; [lra|].
  destruct (Qle_bool 1 x) eqn:B; [lra|].
  apply Qle_bool_false_iff in A. apply Qle_bool_false_iff in B. lra.
Qed.

Lemma X20_generator_bands_witness :
  let w := world simClamped in
  0 <= ampNO2 (app w) /\
  baseNO2 (app w)
  <= result (genNO2 (RT := runtimeClamped) w)
     - (0 + 0.1 * stdNormal (Runtime := runtimeClamped) (rng w))
  <= baseNO2 (app w) + ampNO2 (app w).
Proof.
  cbv zeta.
  assert (AT : 0 <= ampTemp (app (world simClamped))) by (vm_compute; discriminate).
  assert (AH : 0 <= ampHum (app (world simClamped))) by (vm_compute; discriminate).
  assert (AN : 0 <= ampNO2 (app (world simClamped))) by (vm_compute; discriminate).
  split; [exact AN|].
  exact (proj2 (proj2 (proj2 (X20_generator_bands
                                (RT := runtimeClamped) (world simClamped)
                                (fun x => clampUnit_bounds _) AT AH AN)))).
Defined.

Lemma X21_vegetation_term_witness :
  (forall x y, 0 <= WeissbergerPathLoss.pow (Env := envFoliage20) x y) /\
  WeissbergerPathLoss.FreeSpacePathLoss_computePathLoss (Env := envFoliage20) 1000 868000000
  <= WeissbergerPathLoss.computePathLoss (E := envFoliage20) 1000 868000000.
Proof.
  assert (P : forall x y, 0 <= WeissbergerPathLoss.pow (Env := envFoliage20) x y)
    by (intros x y; cbn; lra).
  split; [exact P|].
  exact (proj2 (X21_vegetation_term (E := envFoliage20) 1000 2000 868000000) P).
Defined.
